(** * opengl-learning: a model of [src/main.c]

    The program reads two shader files, opens a GLFW window, compiles and
    links the shaders, uploads a triangle and a rectangle, and draws the
    rectangle until the window is asked to close.

    The C code is embedded as functions in a state monad.  The state holds
    the C heap, the open streams, the two globals of [main.c], what GLFW and
    OpenGL keep for the program, and the list of library calls made so far.
    What the outside world answers (files, allocator room, the driver's
    compile and link results, the events of the window system) is read from
    an environment record. *)

From Stdlib Require Import ZArith Lia QArith.
From Stdlib.Strings Require Import Byte.
From stdpp Require Import base list gmap strings.

Local Open Scope Z_scope.

(** ** Integers of the C types used by [main.c] *)

Definition SIZE_MAX : Z := 2 ^ 64 - 1.
Definition LONG_MAX : Z := 2 ^ 63 - 1.

(** Conversion to [size_t]: reduction modulo 2^64. *)
Definition to_size_t (z : Z) : Z := z mod 2 ^ 64.

(** Conversion to [long]: the two's complement reading of the low 64 bits. *)
Definition to_long (z : Z) : Z := (z + 2 ^ 63) mod 2 ^ 64 - 2 ^ 63.

(** ** Memory *)

(** A byte of an allocated object is indeterminate until it is written. *)
Inductive mval : Type :=
| Undef
| Init (b : byte).

Definition block : Type := list mval.

(** [unsigned char*]: null, or the start of the block with that number. *)
Inductive ptr : Type :=
| NULL
| Ptr (b : nat).

(** [FILE*]: null, or the number of a stream. *)
Definition FILE : Type := option nat.

Record stream : Type := {
  s_content : list byte;
  s_pos : Z;
  s_open : bool
}.

Inductive whence : Type := SEEK_SET | SEEK_END.

(** [struct file_contents] *)
Record file_contents : Type := {
  data : ptr;
  size : Z
}.

(** Undefined behaviour after which the run goes on: it is written to the
    log of the state.  A store outside its block changes no block of the
    model.  A library function that is given, as a string, bytes in which
    no terminator has been written reads bytes that were never written and
    may run past the end of the array. *)
Inductive ub_event : Type :=
| OutOfBoundsStore (b : nat) (index : Z) (allocated : Z)
| IndeterminateRead (var : string)
| UnterminatedString (fn : string).

(** Undefined behaviour that ends the run. *)
Inductive fault : Type :=
| NullStream (fn : string)
| BadStream (fn : string)
| NullPointer (fn : string)
| BadPointer (fn : string).

(** ** Enumerations of the GLFW and OpenGL headers *)

Inductive GLFWhint : Type :=
| GLFW_CONTEXT_VERSION_MAJOR
| GLFW_CONTEXT_VERSION_MINOR.

Inductive GLFWkey : Type :=
| GLFW_KEY_ESCAPE
| GLFW_KEY_OTHER (code : Z).

Inductive GLFWaction : Type :=
| GLFW_RELEASE
| GLFW_PRESS
| GLFW_REPEAT.

Inductive GLenum : Type :=
| GL_VERTEX_SHADER
| GL_FRAGMENT_SHADER
| GL_COMPILE_STATUS
| GL_LINK_STATUS
| GL_ARRAY_BUFFER
| GL_ELEMENT_ARRAY_BUFFER
| GL_STATIC_DRAW
| GL_FLOAT
| GL_UNSIGNED_INT
| GL_TRIANGLES
| GL_COLOR_BUFFER_BIT
| GL_INVALID_ENUM
| GL_INVALID_OPERATION.

Global Instance GLenum_eq_dec : EqDecision GLenum.
Proof. solve_decision. Defined.

Global Instance GLFWaction_eq_dec : EqDecision GLFWaction.
Proof. solve_decision. Defined.

(** [GLFWwindow*] is null or the one window of the program. *)
Inductive GLFWwindow : Type := TheWindow.

(** The two functions of [main.c] that have the type of a size callback. *)
Inductive callback : Type :=
| fn_window_size_callback
| fn_framebuffer_size_callback.

(** What the window system hands to [glfwPollEvents]. *)
Inductive os_event : Type :=
| CloseRequested
| KeyEvent (key : GLFWkey) (action : GLFWaction)
| WindowResized (width height : Z)
| FramebufferResized (width height : Z).

(** A [float] literal is kept as the decimal fraction it is written as. *)
Definition float : Type := Q.

(** The array handed to [glBufferData]. *)
Inductive payload : Type :=
| Floats (l : list float)
| UInts (l : list Z).

Definition count (p : payload) : Z :=
  match p with
  | Floats l => Z.of_nat (length l)
  | UInts l => Z.of_nat (length l)
  end.

(** [sizeof] of an array of [float] or [unsigned int]. *)
Definition sizeof (p : payload) : Z := 4 * count p.

Record buffer_obj : Type := {
  bo_size : Z;
  bo_data : payload;
  bo_usage : GLenum
}.

(** One vertex attribute of a vertex array object, as set by
    [glVertexAttribPointer]: the buffer bound to [GL_ARRAY_BUFFER] at the
    call and the layout given. *)
Record attrib : Type := {
  at_buffer : Z;
  at_size : Z;
  at_type : GLenum;
  at_normalized : bool;
  at_stride : Z;
  at_offset : Z
}.

Record vao_obj : Type := {
  va_attribs : gmap Z attrib;
  va_enabled : list Z;
  va_element_buffer : Z
}.

Definition empty_vao : vao_obj :=
  {| va_attribs := ∅; va_enabled := []; va_element_buffer := 0 |}.

(** ** Library calls, as they are recorded in the state *)

Inductive call : Type :=
| GlfwInit
| GlfwWindowHint (hint : GLFWhint) (value : Z)
| GlfwCreateWindow (width height : Z) (title : string)
| GlfwTerminate
| GlfwMakeContextCurrent (w : GLFWwindow)
| GlfwSetFramebufferSizeCallback (w : GLFWwindow) (cb : callback)
| GladLoadGLLoader
| GlfwWindowShouldClose (w : GLFWwindow) (ret : bool)
| GlfwGetKey (w : GLFWwindow) (key : GLFWkey) (ret : GLFWaction)
| GlfwSetWindowShouldClose (w : GLFWwindow) (value : bool)
| GlfwSwapBuffers (w : GLFWwindow)
| GlfwPollEvents (delivered : list os_event)
| GlCreateShader (type : GLenum) (ret : Z)
| GlShaderSource (shader : Z) (n : Z) (str : ptr)
| GlCompileShader (shader : Z)
| GlGetShaderiv (shader : Z) (pname : GLenum)
| GlGetShaderInfoLog (shader : Z) (bufSize : Z)
| GlCreateProgram (ret : Z)
| GlAttachShader (program shader : Z)
| GlLinkProgram (program : Z)
| GlGetProgramiv (program : Z) (pname : GLenum)
| GlGetProgramInfoLog (program : Z) (bufSize : Z)
| GlUseProgram (program : Z)
| GlDeleteShader (shader : Z)
| GlGenVertexArrays (n : Z) (ret : Z)
| GlGenBuffers (n : Z) (ret : Z)
| GlBindVertexArray (array : Z)
| GlBindBuffer (target : GLenum) (buffer : Z)
| GlBufferData (target : GLenum) (sz : Z) (src : payload) (usage : GLenum)
| GlVertexAttribPointer (index sz : Z) (type : GLenum) (normalized : bool)
    (stride : Z) (pointer : Z)
| GlEnableVertexAttribArray (index : Z)
| GlClearColor (r g b a : float)
| GlClear (mask : GLenum)
| GlDrawElements (mode : GLenum) (n : Z) (type : GLenum) (indices : Z)
| GlViewport (x y width height : Z).

(** One [printf]: the format and, for each [%s], the bytes of the [char]
    array passed for it, as they are at the call. *)
Record printed : Type := Printf {
  pr_format : string;
  pr_args : list (list mval)
}.

(** ** The environment *)

Record env : Type := {
  (** the files that can be opened, by path *)
  env_files : gmap string (list byte);
  (** the number of bytes [malloc] can hand out *)
  env_heap : Z;
  (** what an [int] variable holds when it is read before it is written *)
  env_garbage : string → Z;
  env_glfwInit : Z;
  env_glfwCreateWindow : option GLFWwindow;
  env_gladLoadGLLoader : Z;
  (** compile status and info log of the shader with that name *)
  env_compile : Z → Z * list byte;
  (** link status and info log of the program with that name *)
  env_link : Z → Z * list byte;
  (** the events delivered by the n-th call of [glfwPollEvents] *)
  env_events : nat → list os_event
}.

(** ** The state *)

(** The C runtime. *)
Record crt_state : Type := {
  heap : list block;
  heap_avail : Z;
  streams : list stream;
  ub_log : list ub_event;
  stdout : list printed
}.

(** What GLFW keeps for the one window. *)
Record glfw_state : Type := {
  should_close : bool;
  escape_key : GLFWaction;
  framebuffer_size_cb : option callback;
  window_size_cb : option callback;
  polls : nat
}.

(** What the OpenGL context keeps.  Names are handed out in increasing
    order, shaders and programs from one counter, buffers and vertex arrays
    from one each; 0 is never a name. *)
Record gl_state : Type := {
  gl_shader_names : Z;
  gl_buffer_names : Z;
  gl_vao_names : Z;
  gl_buffers : gmap Z buffer_obj;
  gl_vaos : gmap Z vao_obj;
  gl_array_buffer : Z;
  gl_vertex_array : Z;
  gl_errors : list GLenum
}.

Record state : Type := {
  crt : crt_state;
  (** [int window_width], [int window_height] *)
  window_width : Z;
  window_height : Z;
  glfw : glfw_state;
  gl : gl_state;
  calls : list call
}.

Definition set_heap (v : list block) (c : crt_state) : crt_state :=
  {| heap := v; heap_avail := heap_avail c; streams := streams c;
     ub_log := ub_log c; stdout := stdout c |}.
Definition set_heap_avail (v : Z) (c : crt_state) : crt_state :=
  {| heap := heap c; heap_avail := v; streams := streams c;
     ub_log := ub_log c; stdout := stdout c |}.
Definition set_streams (v : list stream) (c : crt_state) : crt_state :=
  {| heap := heap c; heap_avail := heap_avail c; streams := v;
     ub_log := ub_log c; stdout := stdout c |}.
Definition set_ub_log (v : list ub_event) (c : crt_state) : crt_state :=
  {| heap := heap c; heap_avail := heap_avail c; streams := streams c;
     ub_log := v; stdout := stdout c |}.
Definition set_stdout (v : list printed) (c : crt_state) : crt_state :=
  {| heap := heap c; heap_avail := heap_avail c; streams := streams c;
     ub_log := ub_log c; stdout := v |}.

Definition set_should_close (v : bool) (g : glfw_state) : glfw_state :=
  {| should_close := v; escape_key := escape_key g;
     framebuffer_size_cb := framebuffer_size_cb g;
     window_size_cb := window_size_cb g; polls := polls g |}.
Definition set_escape_key (v : GLFWaction) (g : glfw_state) : glfw_state :=
  {| should_close := should_close g; escape_key := v;
     framebuffer_size_cb := framebuffer_size_cb g;
     window_size_cb := window_size_cb g; polls := polls g |}.
Definition set_framebuffer_size_cb (v : option callback) (g : glfw_state)
  : glfw_state :=
  {| should_close := should_close g; escape_key := escape_key g;
     framebuffer_size_cb := v;
     window_size_cb := window_size_cb g; polls := polls g |}.
Definition set_polls (v : nat) (g : glfw_state) : glfw_state :=
  {| should_close := should_close g; escape_key := escape_key g;
     framebuffer_size_cb := framebuffer_size_cb g;
     window_size_cb := window_size_cb g; polls := v |}.

Definition set_gl_shader_names (v : Z) (g : gl_state) : gl_state :=
  {| gl_shader_names := v; gl_buffer_names := gl_buffer_names g;
     gl_vao_names := gl_vao_names g; gl_buffers := gl_buffers g;
     gl_vaos := gl_vaos g; gl_array_buffer := gl_array_buffer g;
     gl_vertex_array := gl_vertex_array g; gl_errors := gl_errors g |}.
Definition set_gl_buffer_names (v : Z) (g : gl_state) : gl_state :=
  {| gl_shader_names := gl_shader_names g; gl_buffer_names := v;
     gl_vao_names := gl_vao_names g; gl_buffers := gl_buffers g;
     gl_vaos := gl_vaos g; gl_array_buffer := gl_array_buffer g;
     gl_vertex_array := gl_vertex_array g; gl_errors := gl_errors g |}.
Definition set_gl_vao_names (v : Z) (g : gl_state) : gl_state :=
  {| gl_shader_names := gl_shader_names g;
     gl_buffer_names := gl_buffer_names g;
     gl_vao_names := v; gl_buffers := gl_buffers g;
     gl_vaos := gl_vaos g; gl_array_buffer := gl_array_buffer g;
     gl_vertex_array := gl_vertex_array g; gl_errors := gl_errors g |}.
Definition set_gl_buffers (v : gmap Z buffer_obj) (g : gl_state) : gl_state :=
  {| gl_shader_names := gl_shader_names g;
     gl_buffer_names := gl_buffer_names g;
     gl_vao_names := gl_vao_names g; gl_buffers := v;
     gl_vaos := gl_vaos g; gl_array_buffer := gl_array_buffer g;
     gl_vertex_array := gl_vertex_array g; gl_errors := gl_errors g |}.
Definition set_gl_vaos (v : gmap Z vao_obj) (g : gl_state) : gl_state :=
  {| gl_shader_names := gl_shader_names g;
     gl_buffer_names := gl_buffer_names g;
     gl_vao_names := gl_vao_names g; gl_buffers := gl_buffers g;
     gl_vaos := v; gl_array_buffer := gl_array_buffer g;
     gl_vertex_array := gl_vertex_array g; gl_errors := gl_errors g |}.
Definition set_gl_array_buffer (v : Z) (g : gl_state) : gl_state :=
  {| gl_shader_names := gl_shader_names g;
     gl_buffer_names := gl_buffer_names g;
     gl_vao_names := gl_vao_names g; gl_buffers := gl_buffers g;
     gl_vaos := gl_vaos g; gl_array_buffer := v;
     gl_vertex_array := gl_vertex_array g; gl_errors := gl_errors g |}.
Definition set_gl_vertex_array (v : Z) (g : gl_state) : gl_state :=
  {| gl_shader_names := gl_shader_names g;
     gl_buffer_names := gl_buffer_names g;
     gl_vao_names := gl_vao_names g; gl_buffers := gl_buffers g;
     gl_vaos := gl_vaos g; gl_array_buffer := gl_array_buffer g;
     gl_vertex_array := v; gl_errors := gl_errors g |}.
Definition set_gl_errors (v : list GLenum) (g : gl_state) : gl_state :=
  {| gl_shader_names := gl_shader_names g;
     gl_buffer_names := gl_buffer_names g;
     gl_vao_names := gl_vao_names g; gl_buffers := gl_buffers g;
     gl_vaos := gl_vaos g; gl_array_buffer := gl_array_buffer g;
     gl_vertex_array := gl_vertex_array g; gl_errors := v |}.

Definition upd_crt (f : crt_state → crt_state) (s : state) : state :=
  {| crt := f (crt s); window_width := window_width s;
     window_height := window_height s; glfw := glfw s; gl := gl s;
     calls := calls s |}.
Definition upd_glfw (f : glfw_state → glfw_state) (s : state) : state :=
  {| crt := crt s; window_width := window_width s;
     window_height := window_height s; glfw := f (glfw s); gl := gl s;
     calls := calls s |}.
Definition upd_gl (f : gl_state → gl_state) (s : state) : state :=
  {| crt := crt s; window_width := window_width s;
     window_height := window_height s; glfw := glfw s; gl := f (gl s);
     calls := calls s |}.
Definition set_window_width (v : Z) (s : state) : state :=
  {| crt := crt s; window_width := v;
     window_height := window_height s; glfw := glfw s; gl := gl s;
     calls := calls s |}.
Definition set_window_height (v : Z) (s : state) : state :=
  {| crt := crt s; window_width := window_width s;
     window_height := v; glfw := glfw s; gl := gl s;
     calls := calls s |}.
Definition record_call (c : call) (s : state) : state :=
  {| crt := crt s; window_width := window_width s;
     window_height := window_height s; glfw := glfw s; gl := gl s;
     calls := calls s ++ [c] |}.

(** ** The monad of the program *)

(** A run returns, is ended by undefined behaviour, or is cut short because
    the render loop was given too few iterations. *)
Inductive outcome (A : Type) : Type :=
| Ret (a : A) (s : state)
| Crash (why : fault) (s : state)
| OutOfFuel (s : state).
Arguments Ret {A} a s.
Arguments Crash {A} why s.
Arguments OutOfFuel {A} s.

Definition M (A : Type) : Type := state → outcome A.

Definition ret {A : Type} (a : A) : M A := fun s => Ret a s.

Definition bind {A B : Type} (m : M A) (k : A → M B) : M B :=
  fun s =>
    match m s with
    | Ret a s' => k a s'
    | Crash why s' => Crash why s'
    | OutOfFuel s' => OutOfFuel s'
    end.

Notation "'do' x <- m ; k" := (bind m (fun x => k))
  (at level 10, x pattern, m at level 100, k at level 200,
   format "'[v' 'do'  x  <-  m ; '/' k ']'").
Notation "m ;; k" := (bind m (fun _ => k))
  (at level 100, k at level 200, right associativity,
   format "'[v' m  ;; '/' k ']'").

Definition crash {A : Type} (why : fault) : M A := fun s => Crash why s.
Definition out_of_fuel {A : Type} : M A := fun s => OutOfFuel s.
Definition gets {A : Type} (f : state → A) : M A := fun s => Ret (f s) s.
Definition modify (f : state → state) : M unit := fun s => Ret tt (f s).
Definition emit (c : call) : M unit := modify (record_call c).

(** The state in which an outcome leaves the program. *)
Definition final {A : Type} (o : outcome A) : state :=
  match o with
  | Ret _ s => s
  | Crash _ s => s
  | OutOfFuel s => s
  end.

(** ** The C library, as far as [main.c] uses it *)

Definition log_ub (e : ub_event) : M unit :=
  modify (upd_crt (fun c => set_ub_log (ub_log c ++ [e]) c)).

(** The stream behind a [FILE*]; the call has no defined behaviour on a
    null pointer or on a stream that is not open. *)
Definition the_stream (fn : string) (file : FILE) : M (nat * stream) :=
  match file with
  | None => crash (NullStream fn)
  | Some n =>
      do st <- gets (fun s => streams (crt s) !! n);
      match st with
      | Some f => if s_open f then ret (n, f) else crash (BadStream fn)
      | None => crash (BadStream fn)
      end
  end.

Definition put_stream (n : nat) (f : stream) : M unit :=
  modify (upd_crt (fun c => set_streams (<[n := f]> (streams c)) c)).

Definition ftell (file : FILE) : M Z :=
  do (_, f) <- the_stream "ftell" file;
  ret (s_pos f).

Definition fseek (file : FILE) (offset : Z) (origin : whence) : M Z :=
  do (n, f) <- the_stream "fseek" file;
  let target :=
    match origin with
    | SEEK_SET => offset
    | SEEK_END => Z.of_nat (length (s_content f)) + offset
    end in
  if target <? 0 then ret (-1)
  else
    put_stream n {| s_content := s_content f; s_pos := target;
                    s_open := s_open f |} ;;
    ret 0.

Definition fclose (file : FILE) : M Z :=
  do (n, f) <- the_stream "fclose" file;
  put_stream n {| s_content := s_content f; s_pos := s_pos f;
                  s_open := false |} ;;
  ret 0.

(** [malloc]: a null pointer when the request exceeds what is left, else a
    new block of [n] indeterminate bytes. *)
Definition malloc (n : Z) : M ptr :=
  do c <- gets crt;
  if heap_avail c <? n then ret NULL
  else
    modify (upd_crt (fun c =>
      set_heap (heap c ++ [replicate (Z.to_nat n) Undef])
        (set_heap_avail (heap_avail c - n) c))) ;;
    ret (Ptr (length (heap c))).

(** [p[i] = v].  Inside the block the byte is written; outside, the store
    is logged with the index and the length of the block. *)
Definition store (fn : string) (p : ptr) (i : Z) (v : byte) : M unit :=
  match p with
  | NULL => crash (NullPointer fn)
  | Ptr b =>
      do blk <- gets (fun s => heap (crt s) !! b);
      match blk with
      | None => crash (BadPointer fn)
      | Some blk =>
          if (0 <=? i) && (i <? Z.of_nat (length blk)) then
            modify (upd_crt (fun c =>
              set_heap (<[b := <[Z.to_nat i := Init v]> blk]> (heap c)) c))
          else log_ub (OutOfBoundsStore b i (Z.of_nat (length blk)))
      end
  end.

Fixpoint store_bytes (fn : string) (p : ptr) (i : Z) (l : list byte)
  : M unit :=
  match l with
  | [] => ret tt
  | v :: l' => store fn p i v ;; store_bytes fn p (i + 1) l'
  end.

(** [fread]: the bytes from the position of the stream on, at most
    [sz * nmemb] of them, go to [p[0..]]; the result is the number of whole
    elements read.  When [sz] or [nmemb] is zero the call returns zero and
    touches neither the array nor the stream, whatever [p] is; otherwise a
    null buffer has no defined behaviour. *)
Definition fread (p : ptr) (sz nmemb : Z) (file : FILE) : M Z :=
  do (n, f) <- the_stream "fread" file;
  if sz * nmemb =? 0 then ret 0
  else
    match p with
    | NULL => crash (NullPointer "fread")
    | Ptr _ =>
        let got := take (Z.to_nat (sz * nmemb))
                        (drop (Z.to_nat (s_pos f)) (s_content f)) in
        store_bytes "fread" p 0 got ;;
        put_stream n {| s_content := s_content f;
                        s_pos := s_pos f + Z.of_nat (length got);
                        s_open := s_open f |} ;;
        ret (if sz =? 0 then 0 else Z.of_nat (length got) / sz)
    end.

(** The bytes hold a string: a terminator has been written, and so has
    every byte in front of it. *)
Fixpoint terminated (a : list mval) : bool :=
  match a with
  | Init b :: a' => Byte.eqb b x00 || terminated a'
  | _ => false
  end.

(** The same for what a pointer leads to; a pointer that leads to no block
    leads to no string. *)
Definition string_at (hp : list block) (p : ptr) : bool :=
  match p with
  | NULL => false
  | Ptr b =>
      match hp !! b with
      | Some blk => terminated blk
      | None => false
      end
  end.

(** [printf], with the arrays passed for the [%s] of the format: each is
    read up to its terminator. *)
Definition printf (format : string) (args : list (list mval)) : M unit :=
  (if forallb terminated args then ret tt
   else log_ub (UnterminatedString "printf")) ;;
  modify (upd_crt (fun c =>
    set_stdout (stdout c ++ [Printf format args]) c)).

(** Reading an [int] variable: its value, or, when it was never written,
    what the environment left there (and the read is logged). *)
Definition read_int (garbage : string → Z) (var : string) (v : option Z)
  : M Z :=
  match v with
  | Some z => ret z
  | None => log_ub (IndeterminateRead var) ;; ret (garbage var)
  end.

Section WithEnv.

Variable E : env.

Definition fopen (filename mode : string) : M FILE :=
  match env_files E !! filename with
  | None => ret None
  | Some content =>
      do n <- gets (fun s => length (streams (crt s)));
      modify (upd_crt (fun c =>
        set_streams (streams c ++ [{| s_content := content; s_pos := 0;
                                      s_open := true |}]) c)) ;;
      ret (Some n)
  end.

(** ** [main.c]: the file loader *)

Definition read_entire_file (filename : string) : M file_contents :=
  do file <- fopen filename "rb";
  do cur_pos <- ftell file;
  let cur_pos := to_size_t cur_pos in
  fseek file 0 SEEK_END ;;
  do end_pos <- ftell file;
  let result_size := to_size_t (end_pos + 1) in
  fseek file (to_long cur_pos) SEEK_SET ;;
  do result_data <- malloc result_size;
  fread result_data 1 (to_size_t (result_size - 1)) file ;;
  fclose file ;;
  store "read_entire_file" result_data result_size x00 ;;
  ret {| data := result_data; size := result_size |}.

(** ** OpenGL, as far as [main.c] uses it *)

Definition gl_error (e : GLenum) : M unit :=
  modify (upd_gl (fun g => set_gl_errors (gl_errors g ++ [e]) g)).

Definition glViewport (x y width height : Z) : M unit :=
  emit (GlViewport x y width height).

Definition glCreateShader (type : GLenum) : M Z :=
  do n <- gets (fun s => gl_shader_names (gl s) + 1);
  modify (upd_gl (set_gl_shader_names n)) ;;
  emit (GlCreateShader type n) ;;
  ret n.

(** [glShaderSource(shader, 1, &str, NULL)]: with a null length array the
    GL copies the string up to its terminator. *)
Definition glShaderSource (shader n : Z) (str : ptr) : M unit :=
  emit (GlShaderSource shader n str) ;;
  do is_string <- gets (fun s => string_at (heap (crt s)) str);
  modify (upd_crt (fun c =>
    set_ub_log
      (ub_log c ++
       (if is_string then []
        else [UnterminatedString "glShaderSource"])) c)).

Definition glCompileShader (shader : Z) : M unit :=
  emit (GlCompileShader shader).

(** [glGetShaderiv(shader, pname, &v)]: takes what [v] holds and gives what
    it holds afterwards.  Of the names listed in [GLenum] only
    [GL_COMPILE_STATUS] is a shader parameter; for the others the call
    raises [GL_INVALID_ENUM] and writes nothing. *)
Definition glGetShaderiv (shader : Z) (pname : GLenum) (v : option Z)
  : M (option Z) :=
  emit (GlGetShaderiv shader pname) ;;
  match pname with
  | GL_COMPILE_STATUS => ret (Some (fst (env_compile E shader)))
  | _ => gl_error GL_INVALID_ENUM ;; ret v
  end.

(** An info log written to a [char] array: at most [bufSize - 1] bytes of
    it, then the terminator; the bytes behind stay as they were.  [main.c]
    passes the length of the array as [bufSize]. *)
Definition write_log (bufSize : Z) (log : list byte) (buf : list mval)
  : list mval :=
  if bufSize <=? 0 then buf
  else
    let text := take (Z.to_nat (bufSize - 1)) log in
    (Init <$> text) ++ [Init x00] ++ drop (S (length text)) buf.

Definition glGetShaderInfoLog (shader bufSize : Z) (infoLog : list mval)
  : M (list mval) :=
  emit (GlGetShaderInfoLog shader bufSize) ;;
  ret (write_log bufSize (snd (env_compile E shader)) infoLog).

Definition glCreateProgram : M Z :=
  do n <- gets (fun s => gl_shader_names (gl s) + 1);
  modify (upd_gl (set_gl_shader_names n)) ;;
  emit (GlCreateProgram n) ;;
  ret n.

Definition glAttachShader (program shader : Z) : M unit :=
  emit (GlAttachShader program shader).

Definition glLinkProgram (program : Z) : M unit :=
  emit (GlLinkProgram program).

(** [glGetProgramiv(program, pname, &v)].  Of the names listed in [GLenum]
    only [GL_LINK_STATUS] is a program parameter; for the others, among them
    [GL_COMPILE_STATUS], the call raises [GL_INVALID_ENUM] and writes
    nothing. *)
Definition glGetProgramiv (program : Z) (pname : GLenum) (v : option Z)
  : M (option Z) :=
  emit (GlGetProgramiv program pname) ;;
  match pname with
  | GL_LINK_STATUS => ret (Some (fst (env_link E program)))
  | _ => gl_error GL_INVALID_ENUM ;; ret v
  end.

Definition glGetProgramInfoLog (program bufSize : Z) (infoLog : list mval)
  : M (list mval) :=
  emit (GlGetProgramInfoLog program bufSize) ;;
  ret (write_log bufSize (snd (env_link E program)) infoLog).

Definition glUseProgram (program : Z) : M unit :=
  emit (GlUseProgram program).

Definition glDeleteShader (shader : Z) : M unit :=
  emit (GlDeleteShader shader).

(** [glGenVertexArrays(1, &v)] and [glGenBuffers(1, &v)]: the one name
    written to [v]. *)
Definition glGenVertexArrays (n : Z) : M Z :=
  do v <- gets (fun s => gl_vao_names (gl s) + 1);
  modify (upd_gl (set_gl_vao_names v)) ;;
  emit (GlGenVertexArrays n v) ;;
  ret v.

Definition glGenBuffers (n : Z) : M Z :=
  do v <- gets (fun s => gl_buffer_names (gl s) + 1);
  modify (upd_gl (set_gl_buffer_names v)) ;;
  emit (GlGenBuffers n v) ;;
  ret v.

(** Binding a name for the first time creates the vertex array object. *)
Definition glBindVertexArray (array : Z) : M unit :=
  emit (GlBindVertexArray array) ;;
  modify (upd_gl (fun g =>
    set_gl_vertex_array array
      (set_gl_vaos
         (if (array =? 0) || bool_decide (is_Some (gl_vaos g !! array))
          then gl_vaos g
          else <[array := empty_vao]> (gl_vaos g)) g))).

(** A change to the bound vertex array object; without one the call is a
    [GL_INVALID_OPERATION]. *)
Definition with_bound_vao (f : vao_obj → vao_obj) : M unit :=
  do g <- gets gl;
  match gl_vaos g !! gl_vertex_array g with
  | Some v =>
      modify (upd_gl (set_gl_vaos (<[gl_vertex_array g := f v]> (gl_vaos g))))
  | None => gl_error GL_INVALID_OPERATION
  end.

Definition set_element_buffer (b : Z) (v : vao_obj) : vao_obj :=
  {| va_attribs := va_attribs v; va_enabled := va_enabled v;
     va_element_buffer := b |}.
Definition set_attrib (i : Z) (a : attrib) (v : vao_obj) : vao_obj :=
  {| va_attribs := <[i := a]> (va_attribs v); va_enabled := va_enabled v;
     va_element_buffer := va_element_buffer v |}.
Definition enable_attrib (i : Z) (v : vao_obj) : vao_obj :=
  {| va_attribs := va_attribs v; va_enabled := va_enabled v ++ [i];
     va_element_buffer := va_element_buffer v |}.

(** The element array binding belongs to the bound vertex array object. *)
Definition glBindBuffer (target : GLenum) (buffer : Z) : M unit :=
  emit (GlBindBuffer target buffer) ;;
  match target with
  | GL_ARRAY_BUFFER => modify (upd_gl (set_gl_array_buffer buffer))
  | GL_ELEMENT_ARRAY_BUFFER => with_bound_vao (set_element_buffer buffer)
  | _ => gl_error GL_INVALID_ENUM
  end.

(** The buffer bound to a target; 0 when there is none. *)
Definition bound_buffer (target : GLenum) (g : gl_state) : Z :=
  match target with
  | GL_ARRAY_BUFFER => gl_array_buffer g
  | GL_ELEMENT_ARRAY_BUFFER =>
      match gl_vaos g !! gl_vertex_array g with
      | Some v => va_element_buffer v
      | None => 0
      end
  | _ => 0
  end.

(** [glBufferData] gives the buffer bound to the target a new data store. *)
Definition glBufferData (target : GLenum) (sz : Z) (src : payload)
  (usage : GLenum) : M unit :=
  emit (GlBufferData target sz src usage) ;;
  do b <- gets (fun s => bound_buffer target (gl s));
  if b =? 0 then gl_error GL_INVALID_OPERATION
  else
    modify (upd_gl (fun g =>
      set_gl_buffers
        (<[b := {| bo_size := sz; bo_data := src; bo_usage := usage |}]>
           (gl_buffers g)) g)).

Definition glVertexAttribPointer (index sz : Z) (type : GLenum)
  (normalized : bool) (stride pointer : Z) : M unit :=
  emit (GlVertexAttribPointer index sz type normalized stride pointer) ;;
  do b <- gets (fun s => gl_array_buffer (gl s));
  with_bound_vao (set_attrib index
    {| at_buffer := b; at_size := sz; at_type := type;
       at_normalized := normalized; at_stride := stride;
       at_offset := pointer |}).

Definition glEnableVertexAttribArray (index : Z) : M unit :=
  emit (GlEnableVertexAttribArray index) ;;
  with_bound_vao (enable_attrib index).

Definition glClearColor (r g b a : float) : M unit :=
  emit (GlClearColor r g b a).

Definition glClear (mask : GLenum) : M unit := emit (GlClear mask).

Definition glDrawElements (mode : GLenum) (n : Z) (type : GLenum)
  (indices : Z) : M unit :=
  emit (GlDrawElements mode n type indices).

(** ** [main.c]: the globals' callbacks *)

Definition window_size_callback (glfw_window : GLFWwindow)
  (width height : Z) : M unit :=
  modify (set_window_width width) ;;
  modify (set_window_height height) ;;
  do w <- gets window_width;
  do h <- gets window_height;
  glViewport 0 0 w h.

Definition framebuffer_size_callback (window : GLFWwindow)
  (width height : Z) : M unit :=
  glViewport 0 0 width height.

(** A call through a function pointer to one of the two. *)
Definition run_callback (cb : callback) (w : GLFWwindow) (width height : Z)
  : M unit :=
  match cb with
  | fn_window_size_callback => window_size_callback w width height
  | fn_framebuffer_size_callback => framebuffer_size_callback w width height
  end.

(** ** GLFW, as far as [main.c] uses it *)

Definition glfwInit : M Z := emit GlfwInit ;; ret (env_glfwInit E).

Definition glfwWindowHint (hint : GLFWhint) (value : Z) : M unit :=
  emit (GlfwWindowHint hint value).

Definition glfwCreateWindow (width height : Z) (title : string)
  : M (option GLFWwindow) :=
  emit (GlfwCreateWindow width height title) ;;
  ret (env_glfwCreateWindow E).

Definition glfwTerminate : M unit := emit GlfwTerminate.

Definition glfwMakeContextCurrent (w : GLFWwindow) : M unit :=
  emit (GlfwMakeContextCurrent w).

Definition glfwSetFramebufferSizeCallback (w : GLFWwindow) (cb : callback)
  : M unit :=
  emit (GlfwSetFramebufferSizeCallback w cb) ;;
  modify (upd_glfw (set_framebuffer_size_cb (Some cb))).

Definition gladLoadGLLoader : M Z :=
  emit GladLoadGLLoader ;; ret (env_gladLoadGLLoader E).

Definition glfwWindowShouldClose (w : GLFWwindow) : M bool :=
  do c <- gets (fun s => should_close (glfw s));
  emit (GlfwWindowShouldClose w c) ;;
  ret c.

Definition glfwSetWindowShouldClose (w : GLFWwindow) (value : bool)
  : M unit :=
  emit (GlfwSetWindowShouldClose w value) ;;
  modify (upd_glfw (set_should_close value)).

(** The last state reported for a key; only Escape is followed. *)
Definition glfwGetKey (w : GLFWwindow) (key : GLFWkey) : M GLFWaction :=
  do a <- gets (fun s =>
    match key with
    | GLFW_KEY_ESCAPE => escape_key (glfw s)
    | GLFW_KEY_OTHER _ => GLFW_RELEASE
    end);
  emit (GlfwGetKey w key a) ;;
  ret a.

Definition glfwSwapBuffers (w : GLFWwindow) : M unit :=
  emit (GlfwSwapBuffers w).

(** What GLFW does with one event: a close request sets the close flag, a
    key event updates the state of the key, a size event goes to the
    callback registered for it, if there is one. *)
Definition handle_event (ev : os_event) : M unit :=
  match ev with
  | CloseRequested => modify (upd_glfw (set_should_close true))
  | KeyEvent GLFW_KEY_ESCAPE a =>
      modify (upd_glfw (set_escape_key
        (match a with GLFW_RELEASE => GLFW_RELEASE | _ => GLFW_PRESS end)))
  | KeyEvent (GLFW_KEY_OTHER _) _ => ret tt
  | WindowResized width height =>
      do cb <- gets (fun s => window_size_cb (glfw s));
      match cb with
      | Some f => run_callback f TheWindow width height
      | None => ret tt
      end
  | FramebufferResized width height =>
      do cb <- gets (fun s => framebuffer_size_cb (glfw s));
      match cb with
      | Some f => run_callback f TheWindow width height
      | None => ret tt
      end
  end.

Fixpoint handle_events (evs : list os_event) : M unit :=
  match evs with
  | [] => ret tt
  | ev :: evs' => handle_event ev ;; handle_events evs'
  end.

Definition glfwPollEvents : M unit :=
  do n <- gets (fun s => polls (glfw s));
  emit (GlfwPollEvents (env_events E n)) ;;
  modify (upd_glfw (set_polls (S n))) ;;
  handle_events (env_events E n).

(** ** [main.c]: input and the render loop *)

Definition process_input (window : GLFWwindow) : M unit :=
  do key <- glfwGetKey window GLFW_KEY_ESCAPE;
  if decide (key = GLFW_PRESS) then glfwSetWindowShouldClose window true
  else ret tt.

(** The body of the [while] loop of [main]. *)
Definition loop_body (glfw_window : GLFWwindow) (shader_program RECT_VAO : Z)
  : M unit :=
  process_input glfw_window ;;
  glClearColor 0.2%Q 0.3%Q 0.3%Q 1.0%Q ;;
  glClear GL_COLOR_BUFFER_BIT ;;
  glUseProgram shader_program ;;
  glBindVertexArray RECT_VAO ;;
  glDrawElements GL_TRIANGLES 6 GL_UNSIGNED_INT 0 ;;
  glBindVertexArray 0 ;;
  glfwSwapBuffers glfw_window ;;
  glfwPollEvents.

(** [while (!glfwWindowShouldClose(glfw_window)) { ... }], cut after [fuel]
    tests of the condition. *)
Fixpoint render_loop (fuel : nat) (glfw_window : GLFWwindow)
  (shader_program RECT_VAO : Z) : M unit :=
  match fuel with
  | O => out_of_fuel
  | S fuel' =>
      do closing <- glfwWindowShouldClose glfw_window;
      if negb closing then
        loop_body glfw_window shader_program RECT_VAO ;;
        render_loop fuel' glfw_window shader_program RECT_VAO
      else ret tt
  end.

(** ** [main.c]: [main] *)

(** [#define SRC_PATH(file) "../src/"file] *)
Definition SRC_PATH (file : string) : string := "../src/" +:+ file.

(** [char v[512];] before anything is written to it. *)
Definition char_array (n : nat) : list mval := replicate n Undef.

Definition vertices : payload :=
  Floats [ (-0.5)%Q; (-0.5)%Q; 0.0%Q;
           0.5%Q; (-0.5)%Q; 0.0%Q;
           0.0%Q; 0.5%Q; 0.0%Q ].

Definition rect_vertices : payload :=
  Floats [ 0.5%Q; 0.5%Q; 0.0%Q;
           0.5%Q; (-0.5)%Q; 0.0%Q;
           (-0.5)%Q; (-0.5)%Q; 0.0%Q;
           (-0.5)%Q; 0.5%Q; 0.0%Q ].

Definition indices : payload :=
  UInts [ 0; 1; 3;
          1; 2; 3 ].

(** [sizeof(float)] *)
Definition sizeof_float : Z := 4.

(** The two [NULL] arguments of [glfwCreateWindow], the [NULL] length
    arguments of [glShaderSource] and of the info log calls, and the loader
    argument of [gladLoadGLLoader] are constant in [main.c] and left out.
    Formats are kept as they are written in the source. *)
Definition main (fuel : nat) : M Z :=
  do vs_code <- read_entire_file (SRC_PATH "vertex_shader.glsl");
  do fs_code <- read_entire_file (SRC_PATH "fragment_shader.glsl");
  glfwInit ;;
  glfwWindowHint GLFW_CONTEXT_VERSION_MAJOR 3 ;;
  glfwWindowHint GLFW_CONTEXT_VERSION_MINOR 3 ;;
  do width <- gets window_width;
  do height <- gets window_height;
  do glfw_window <- glfwCreateWindow width height "OpenGL experiment";
  match glfw_window with
  | None =>
      printf "Failed to create GLFW window\n" [] ;;
      glfwTerminate ;;
      ret (-1)
  | Some glfw_window =>
  glfwMakeContextCurrent glfw_window ;;
  glfwSetFramebufferSizeCallback glfw_window fn_framebuffer_size_callback ;;
  do glad <- gladLoadGLLoader;
  if glad =? 0 then
    printf "Failed to initialize GLAD\n" [] ;;
    ret (-1)
  else
  (* vertex shader *)
  do vertex_shader <- glCreateShader GL_VERTEX_SHADER;
  glShaderSource vertex_shader 1 (data vs_code) ;;
  glCompileShader vertex_shader ;;
  let vs_success := None in
  let vs_infolog := char_array 512 in
  do vs_success <- glGetShaderiv vertex_shader GL_COMPILE_STATUS vs_success;
  do vs_ok <- read_int (env_garbage E) "vs_success" vs_success;
  do vs_infolog <-
    (if vs_ok =? 0 then
       do vs_infolog <- glGetShaderInfoLog vertex_shader 512 vs_infolog;
       printf "ERROR::SHADER::VERTEX::COMPILATION_FAILED\n%s\n"
         [vs_infolog] ;;
       ret vs_infolog
     else ret vs_infolog);
  (* fragment shader *)
  do fragment_shader <- glCreateShader GL_FRAGMENT_SHADER;
  glShaderSource fragment_shader 1 (data fs_code) ;;
  glCompileShader fragment_shader ;;
  let fs_success := None in
  let fs_infolog := char_array 512 in
  do fs_success <-
    glGetShaderiv fragment_shader GL_COMPILE_STATUS fs_success;
  do fs_ok <- read_int (env_garbage E) "fs_success" fs_success;
  do fs_infolog <-
    (if fs_ok =? 0 then
       do fs_infolog <- glGetShaderInfoLog fragment_shader 512 fs_infolog;
       printf "ERROR::SHADER::FRAGMENT::COMPILATION_FAILED\n%s\n"
         [fs_infolog] ;;
       ret fs_infolog
     else ret fs_infolog);
  (* program *)
  do shader_program <- glCreateProgram;
  glAttachShader shader_program vertex_shader ;;
  glAttachShader shader_program fragment_shader ;;
  glLinkProgram shader_program ;;
  let sp_success := None in
  let sp_infolog := char_array 512 in
  do sp_success <- glGetProgramiv shader_program GL_COMPILE_STATUS sp_success;
  do sp_ok <- read_int (env_garbage E) "sp_success" sp_success;
  do sp_infolog <-
    (if sp_ok =? 0 then
       do sp_infolog <- glGetProgramInfoLog shader_program 512 sp_infolog;
       printf "ERROR::SHADER::PROGRAM::COMPILATION_FAILED\n%s\n"
         [fs_infolog] ;;
       ret sp_infolog
     else ret sp_infolog);
  glUseProgram shader_program ;;
  glDeleteShader vertex_shader ;;
  glDeleteShader fragment_shader ;;
  (* triangle *)
  do VAO <- glGenVertexArrays 1;
  do VBO <- glGenBuffers 1;
  glBindVertexArray VAO ;;
  glBindBuffer GL_ARRAY_BUFFER VBO ;;
  glBufferData GL_ARRAY_BUFFER (sizeof vertices) vertices GL_STATIC_DRAW ;;
  glVertexAttribPointer 0 3 GL_FLOAT false (3 * sizeof_float) 0 ;;
  glEnableVertexAttribArray 0 ;;
  (* rectangle *)
  do RECT_VAO <- glGenVertexArrays 1;
  do RECT_VBO <- glGenBuffers 1;
  glBindVertexArray RECT_VAO ;;
  glBindBuffer GL_ARRAY_BUFFER RECT_VBO ;;
  glBufferData GL_ARRAY_BUFFER (sizeof rect_vertices) rect_vertices
    GL_STATIC_DRAW ;;
  do EBO <- glGenBuffers 1;
  glBindBuffer GL_ELEMENT_ARRAY_BUFFER EBO ;;
  glBufferData GL_ELEMENT_ARRAY_BUFFER (sizeof indices) indices
    GL_STATIC_DRAW ;;
  glVertexAttribPointer 0 3 GL_FLOAT false (3 * sizeof_float) 0 ;;
  glEnableVertexAttribArray 0 ;;
  render_loop fuel glfw_window shader_program RECT_VAO ;;
  glfwTerminate ;;
  ret 0
  end.

End WithEnv.

(** The state in which [main] starts: nothing allocated, no stream open,
    the globals as initialised in [main.c], no GL object. *)
Definition initial (E : env) : state :=
  {| crt := {| heap := []; heap_avail := env_heap E; streams := [];
               ub_log := []; stdout := [] |};
     window_width := 1280;
     window_height := 720;
     glfw := {| should_close := false; escape_key := GLFW_RELEASE;
                framebuffer_size_cb := None; window_size_cb := None;
                polls := 0 |};
     gl := {| gl_shader_names := 0; gl_buffer_names := 0; gl_vao_names := 0;
              gl_buffers := ∅; gl_vaos := ∅; gl_array_buffer := 0;
              gl_vertex_array := 0; gl_errors := [] |};
     calls := [] |}.

(** * What the program leaves behind, in closed form *)

(** The C runtime after [read_entire_file] has read [content]: one more
    block, holding the content and one indeterminate byte; one more stream,
    read to its end and closed; and one store logged, at the index just
    behind the block. *)
Definition after_read (content : list byte) (c : crt_state) : crt_state :=
  let n := Z.of_nat (length content) in
  {| heap := heap c ++ [(Init <$> content) ++ [Undef]];
     heap_avail := heap_avail c - (n + 1);
     streams := streams c ++
       [{| s_content := content; s_pos := n; s_open := false |}];
     ub_log := ub_log c ++
       [OutOfBoundsStore (length (heap c)) (n + 1) (n + 1)];
     stdout := stdout c |}.

(** Both shader files are there, no longer than a [long] can tell, and the
    allocator has room for the two buffers. *)
Definition loads (E : env) (vs fs : list byte) : Prop :=
  env_files E !! SRC_PATH "vertex_shader.glsl" = Some vs ∧
  env_files E !! SRC_PATH "fragment_shader.glsl" = Some fs ∧
  Z.of_nat (length vs) < LONG_MAX ∧
  Z.of_nat (length fs) < LONG_MAX ∧
  Z.of_nat (length vs) + 1 + (Z.of_nat (length fs) + 1) ≤ env_heap E.

(** An operation that touches nothing but the C runtime, and does not
    depend on the fuel. *)
Definition crt_only {A : Type} (m : M A) : Prop :=
  ∀ s, match m s with
       | Ret _ s' | Crash _ s' => ∃ c, s' = upd_crt (fun _ => c) s
       | OutOfFuel _ => False
       end.

(** A small world to run the program in: two short shader files, a driver
    that reports [frag] for the fragment shader and leaves [garbage] in
    unwritten variables, a resize during the second poll and Escape
    pressed during the third. *)
Definition demo_env (frag garbage : Z) : env :=
  {| env_files :=
       <[SRC_PATH "vertex_shader.glsl" := ["v"; "s"]%byte]>
         (<[SRC_PATH "fragment_shader.glsl" := ["f"]%byte]> ∅);
     env_heap := 4096;
     env_garbage := fun _ => garbage;
     env_glfwInit := 1;
     env_glfwCreateWindow := Some TheWindow;
     env_gladLoadGLLoader := 1;
     env_compile := fun n =>
       if n =? 2 then (frag, ["b"; "a"; "d"]%byte) else (1, []);
     env_link := fun _ => (0, ["l"; "n"; "k"]%byte);
     env_events := fun n =>
       match n with
       | 1%nat => [FramebufferResized 800 600; WindowResized 800 600]
       | 2%nat => [KeyEvent GLFW_KEY_ESCAPE GLFW_PRESS]
       | _ => []
       end |}.

(** ** Reading the list of calls *)

Definition is_close_request (ev : os_event) : bool :=
  match ev with CloseRequested => true | _ => false end.

(** The calls by which the close flag of the window gets set... *)
Definition raises_flag (c : call) : bool :=
  match c with
  | GlfwSetWindowShouldClose _ true => true
  | GlfwPollEvents evs => existsb is_close_request evs
  | _ => false
  end.

(** ... and the one by which it would be cleared. *)
Definition clears_flag (c : call) : bool :=
  match c with
  | GlfwSetWindowShouldClose _ false => true
  | _ => false
  end.

(** A test of the loop condition that lets the body run. *)
Definition enters_body (c : call) : bool :=
  match c with
  | GlfwWindowShouldClose _ false => true
  | _ => false
  end.

(** The last statement of the body. *)
Definition ends_body (c : call) : bool :=
  match c with
  | GlfwPollEvents _ => true
  | _ => false
  end.

Definition is_viewport (c : call) : bool :=
  match c with
  | GlViewport _ _ _ _ => true
  | _ => false
  end.

(** The calls the render loop can make, its callbacks included. *)
Definition is_loop_call (c : call) : bool :=
  match c with
  | GlfwWindowShouldClose _ _ | GlfwGetKey _ _ _
  | GlfwSetWindowShouldClose _ true
  | GlClearColor _ _ _ _ | GlClear _ | GlUseProgram _
  | GlBindVertexArray _ | GlDrawElements _ _ _ _
  | GlfwSwapBuffers _ | GlfwPollEvents _ | GlViewport _ _ _ _ => true
  | _ => false
  end.

Definition count_calls (p : call → bool) (t : list call) : nat :=
  length (List.filter p t).

(** After every call that raises the close flag the loop is not entered
    again, and its body is completed at most once. *)
Fixpoint prompt (t : list call) : bool :=
  match t with
  | [] => true
  | c :: t' =>
      (if raises_flag c then
         (count_calls enters_body t' =? 0)%nat &&
         (count_calls ends_body t' <=? 1)%nat
       else true) && prompt t'
  end.

(** The calls of one run of the loop body, up to [glfwPollEvents]. *)
Definition body_calls (w : GLFWwindow) (shader_program RECT_VAO : Z)
  (key : GLFWaction) (evs : list os_event) : list call :=
  [GlfwGetKey w GLFW_KEY_ESCAPE key] ++
  (if decide (key = GLFW_PRESS) then [GlfwSetWindowShouldClose w true]
   else []) ++
  [GlClearColor 0.2%Q 0.3%Q 0.3%Q 1.0%Q; GlClear GL_COLOR_BUFFER_BIT;
   GlUseProgram shader_program; GlBindVertexArray RECT_VAO;
   GlDrawElements GL_TRIANGLES 6 GL_UNSIGNED_INT 0; GlBindVertexArray 0;
   GlfwSwapBuffers w; GlfwPollEvents evs].

(** What the render loop leaves as it is: the C runtime, the registered
    callbacks, and all of the GL state but the vertex array binding. *)
Definition kept (s s' : state) : Prop :=
  crt s' = crt s ∧
  framebuffer_size_cb (glfw s') = framebuffer_size_cb (glfw s) ∧
  window_size_cb (glfw s') = window_size_cb (glfw s) ∧
  set_gl_vertex_array 0 (gl s') = set_gl_vertex_array 0 (gl s).

(** The callbacks as [main] registers them: [framebuffer_size_callback]
    for the framebuffer size, none for the window size. *)
Definition wired (s : state) : Prop :=
  framebuffer_size_cb (glfw s) = Some fn_framebuffer_size_callback ∧
  window_size_cb (glfw s) = None.

(** ** The state in which [main] enters the render loop *)

(** The names the GL hands out to [main]. *)
Definition vertex_shader : Z := 1.
Definition fragment_shader : Z := 2.
Definition shader_program : Z := 3.
Definition VAO : Z := 1.
Definition VBO : Z := 1.
Definition RECT_VAO : Z := 2.
Definition RECT_VBO : Z := 2.
Definition EBO : Z := 3.

(** The three tests of [main] on a status variable. *)
Definition vs_failed (E : env) : bool := fst (env_compile E vertex_shader) =? 0.
Definition fs_failed (E : env) : bool :=
  fst (env_compile E fragment_shader) =? 0.
Definition sp_failed (E : env) : bool := env_garbage E "sp_success" =? 0.

(** What the three [char] arrays of [main] hold once the tests are done. *)
Definition vs_infolog (E : env) : list mval :=
  if vs_failed E
  then write_log 512 (snd (env_compile E vertex_shader)) (char_array 512)
  else char_array 512.
Definition fs_infolog (E : env) : list mval :=
  if fs_failed E
  then write_log 512 (snd (env_compile E fragment_shader)) (char_array 512)
  else char_array 512.
Definition sp_infolog (E : env) : list mval :=
  if sp_failed E
  then write_log 512 (snd (env_link E shader_program)) (char_array 512)
  else char_array 512.

(** What [main] prints between the two file reads and the loop. *)
Definition report (E : env) : list printed :=
  (if vs_failed E
   then [Printf "ERROR::SHADER::VERTEX::COMPILATION_FAILED\n%s\n"
           [vs_infolog E]]
   else []) ++
  (if fs_failed E
   then [Printf "ERROR::SHADER::FRAGMENT::COMPILATION_FAILED\n%s\n"
           [fs_infolog E]]
   else []) ++
  (if sp_failed E
   then [Printf "ERROR::SHADER::PROGRAM::COMPILATION_FAILED\n%s\n"
           [fs_infolog E]]
   else []).

(** The calls [main] makes up to the creation of the window... *)
Definition startup_calls : list call :=
  [GlfwInit;
   GlfwWindowHint GLFW_CONTEXT_VERSION_MAJOR 3;
   GlfwWindowHint GLFW_CONTEXT_VERSION_MINOR 3;
   GlfwCreateWindow 1280 720 "OpenGL experiment"].

(** ... from there to the link of the program ... *)
Definition shader_calls (E : env) (vs fs : ptr) : list call :=
  [GlfwMakeContextCurrent TheWindow;
   GlfwSetFramebufferSizeCallback TheWindow fn_framebuffer_size_callback;
   GladLoadGLLoader;
   GlCreateShader GL_VERTEX_SHADER vertex_shader;
   GlShaderSource vertex_shader 1 vs;
   GlCompileShader vertex_shader;
   GlGetShaderiv vertex_shader GL_COMPILE_STATUS] ++
  (if vs_failed E then [GlGetShaderInfoLog vertex_shader 512] else []) ++
  [GlCreateShader GL_FRAGMENT_SHADER fragment_shader;
   GlShaderSource fragment_shader 1 fs;
   GlCompileShader fragment_shader;
   GlGetShaderiv fragment_shader GL_COMPILE_STATUS] ++
  (if fs_failed E then [GlGetShaderInfoLog fragment_shader 512] else []) ++
  [GlCreateProgram shader_program;
   GlAttachShader shader_program vertex_shader;
   GlAttachShader shader_program fragment_shader;
   GlLinkProgram shader_program].

(** ... the check that follows the link ... *)
Definition link_check_calls (E : env) : list call :=
  [GlGetProgramiv shader_program GL_COMPILE_STATUS] ++
  (if sp_failed E then [GlGetProgramInfoLog shader_program 512] else []).

(** ... and from there to the loop. *)
Definition geometry_calls : list call :=
  [GlUseProgram shader_program;
   GlDeleteShader vertex_shader;
   GlDeleteShader fragment_shader;
   GlGenVertexArrays 1 VAO;
   GlGenBuffers 1 VBO;
   GlBindVertexArray VAO;
   GlBindBuffer GL_ARRAY_BUFFER VBO;
   GlBufferData GL_ARRAY_BUFFER 36 vertices GL_STATIC_DRAW;
   GlVertexAttribPointer 0 3 GL_FLOAT false 12 0;
   GlEnableVertexAttribArray 0;
   GlGenVertexArrays 1 RECT_VAO;
   GlGenBuffers 1 RECT_VBO;
   GlBindVertexArray RECT_VAO;
   GlBindBuffer GL_ARRAY_BUFFER RECT_VBO;
   GlBufferData GL_ARRAY_BUFFER 48 rect_vertices GL_STATIC_DRAW;
   GlGenBuffers 1 EBO;
   GlBindBuffer GL_ELEMENT_ARRAY_BUFFER EBO;
   GlBufferData GL_ELEMENT_ARRAY_BUFFER 24 indices GL_STATIC_DRAW;
   GlVertexAttribPointer 0 3 GL_FLOAT false 12 0;
   GlEnableVertexAttribArray 0].

Definition setup_calls (E : env) (vs fs : ptr) : list call :=
  startup_calls ++ shader_calls E vs fs ++ link_check_calls E ++
  geometry_calls.

(** A vertex array whose attribute 0 takes three floats per vertex, tightly
    packed, from [buffer], and whose indices come from [elements]. *)
Definition position_vao (buffer elements : Z) : vao_obj :=
  {| va_attribs :=
       {[ 0 := {| at_buffer := buffer; at_size := 3; at_type := GL_FLOAT;
                  at_normalized := false; at_stride := 12;
                  at_offset := 0 |} ]};
     va_enabled := [0];
     va_element_buffer := elements |}.

Definition static_buffer (p : payload) : buffer_obj :=
  {| bo_size := sizeof p; bo_data := p; bo_usage := GL_STATIC_DRAW |}.

(** The GL objects at the first test of the loop condition. *)
Definition setup_gl : gl_state :=
  {| gl_shader_names := 3;
     gl_buffer_names := 3;
     gl_vao_names := 2;
     gl_buffers :=
       <[EBO := static_buffer indices]>
         (<[RECT_VBO := static_buffer rect_vertices]>
            (<[VBO := static_buffer vertices]> ∅));
     gl_vaos :=
       <[RECT_VAO := position_vao RECT_VBO EBO]>
         (<[VAO := position_vao VBO 0]> ∅);
     gl_array_buffer := RECT_VBO;
     gl_vertex_array := RECT_VAO;
     gl_errors := [GL_INVALID_ENUM] |}.

(** What [glShaderSource] logs for the source at [p]. *)
Definition source_read (c : crt_state) (p : ptr) : list ub_event :=
  if string_at (heap c) p then []
  else [UnterminatedString "glShaderSource"].

(** The whole state at that point, given the C runtime [c] the two file
    reads have left and the two pointers they have returned.  The message
    about the program prints [fs_infolog], which holds a string only if
    the fragment shader has failed to compile. *)
Definition at_loop (E : env) (vs fs : ptr) (c : crt_state) : state :=
  {| crt :=
       {| heap := heap c; heap_avail := heap_avail c; streams := streams c;
          ub_log := ub_log c ++ source_read c vs ++ source_read c fs ++
            [IndeterminateRead "sp_success"] ++
            (if sp_failed E && negb (fs_failed E)
             then [UnterminatedString "printf"] else []);
          stdout := stdout c ++ report E |};
     window_width := 1280;
     window_height := 720;
     glfw := {| should_close := false; escape_key := GLFW_RELEASE;
                framebuffer_size_cb := Some fn_framebuffer_size_callback;
                window_size_cb := None; polls := 0 |};
     gl := setup_gl;
     calls := setup_calls E vs fs |}.

(** The same world, but [glfwInit] returns [r]. *)
Definition with_glfwInit (r : Z) (E : env) : env :=
  {| env_files := env_files E;
     env_heap := env_heap E;
     env_garbage := env_garbage E;
     env_glfwInit := r;
     env_glfwCreateWindow := env_glfwCreateWindow E;
     env_gladLoadGLLoader := env_gladLoadGLLoader E;
     env_compile := env_compile E;
     env_link := env_link E;
     env_events := env_events E |}.

(** The C runtime when both shader files have been read. *)
Definition loaded (E : env) (vs fs : list byte) : crt_state :=
  after_read fs (after_read vs (crt (initial E))).

(** The state in which a run of [main] enters the loop when the files
    load, the window is created and the loader succeeds. *)
Definition entry (E : env) (vs fs : list byte) : state :=
  at_loop E (Ptr 0) (Ptr 1) (loaded E vs fs).

(** ** Geometry *)

(** The GL objects describe one rectangle and nothing else: one vertex
    array, reading positions from one buffer of 4 vertices of 3 floats and
    indices from one buffer of 6 indices. *)
Definition one_rectangle (g : gl_state) : Prop :=
  ∃ (vao vbo ebo : Z) (v : list float) (i : list Z),
    gl_vaos g = {[ vao := position_vao vbo ebo ]} ∧
    gl_buffers g =
      <[ebo := static_buffer (UInts i)]>
        {[ vbo := static_buffer (Floats v) ]} ∧
    length v = (4 * 3)%nat ∧
    length i = (2 * 3)%nat.

Definition is_buffer_data (c : call) : bool :=
  match c with GlBufferData _ _ _ _ => true | _ => false end.

Definition is_gen (c : call) : bool :=
  match c with
  | GlGenBuffers _ _ | GlGenVertexArrays _ _ => true
  | _ => false
  end.

Definition is_terminate (c : call) : bool :=
  match c with GlfwTerminate => true | _ => false end.

(** A query of the link status of a program. *)
Definition queries_link_status (c : call) : bool :=
  match c with
  | GlGetProgramiv _ GL_LINK_STATUS => true
  | _ => false
  end.

(** ** Events, as the loop sees them *)

(** The state of the Escape key once GLFW has handled [evs], having been
    [k] before: the last Escape event decides, a repeat counting as a
    press. *)
Definition escape_after (evs : list os_event) (k : GLFWaction)
  : GLFWaction :=
  fold_left (fun k ev =>
    match ev with
    | KeyEvent GLFW_KEY_ESCAPE GLFW_RELEASE => GLFW_RELEASE
    | KeyEvent GLFW_KEY_ESCAPE _ => GLFW_PRESS
    | _ => k
    end) evs k.

(** The viewport calls [framebuffer_size_callback] makes when it is the
    callback for the framebuffer size and [evs] are delivered. *)
Definition viewports_of (evs : list os_event) : list call :=
  flat_map (fun ev =>
    match ev with
    | FramebufferResized width height => [GlViewport 0 0 width height]
    | _ => []
    end) evs.

Definition is_draw (c : call) : bool :=
  match c with GlDrawElements _ _ _ _ => true | _ => false end.

(** The calls of one iteration of the loop with the callbacks as [main]
    registers them: the test that admits it, the body with the key state
    [key] and the events [evs], and what the framebuffer callback does
    during the poll. *)
Definition iteration_calls (w : GLFWwindow) (shader_program RECT_VAO : Z)
  (it : GLFWaction * list os_event) : list call :=
  GlfwWindowShouldClose w false ::
  body_calls w shader_program RECT_VAO it.1 it.2 ++ viewports_of it.2.

(** The key state and the events of [n] iterations in a row, the first
    one with the key state [key] and the events of poll number [poll]. *)
Fixpoint iterations (E : env) (n : nat) (key : GLFWaction) (poll : nat)
  : list (GLFWaction * list os_event) :=
  match n with
  | O => []
  | S n' =>
      (key, env_events E poll) ::
      iterations E n' (escape_after (env_events E poll) key) (S poll)
  end.

(** The events a list of calls reports, in order. *)
Definition polled (t : list call) : list os_event :=
  flat_map (fun c =>
    match c with GlfwPollEvents evs => evs | _ => [] end) t.

(** The same world, but with the events [events]. *)
Definition with_events (events : nat → list os_event) (E : env) : env :=
  {| env_files := env_files E;
     env_heap := env_heap E;
     env_garbage := env_garbage E;
     env_glfwInit := env_glfwInit E;
     env_glfwCreateWindow := env_glfwCreateWindow E;
     env_gladLoadGLLoader := env_gladLoadGLLoader E;
     env_compile := env_compile E;
     env_link := env_link E;
     env_events := events |}.

(** ** Messages *)

(** The bytes of a file hold a zero byte. *)
Definition has_zero (l : list byte) : bool :=
  existsb (fun b => Byte.eqb b x00) l.

(** A [char] array of 512 that holds a string: the bytes of [log], as many
    as fit in front of a terminator, and then the terminator. *)
Definition holds_log (log : list byte) (a : list mval) : Prop :=
  let n := Nat.min 511 (length log) in
  length a = 512%nat ∧
  a !! n = Some (Init x00) ∧
  take n a = Init <$> take n log.

(** * Facts *)

Lemma to_size_t_small z : 0 ≤ z < 2 ^ 64 → to_size_t z = z.
Proof. intros. unfold to_size_t. by apply Z.mod_small. Qed.

Lemma to_long_small z : 0 ≤ z < 2 ^ 63 → to_long z = z.
Proof. intros. unfold to_long. rewrite Z.mod_small; lia. Qed.

Lemma bind_Ret {A B} (m : M A) (k : A → M B) s a s' :
  m s = Ret a s' → bind m k s = k a s'.
Proof. intros H. unfold bind. by rewrite H. Qed.

Lemma bind_Crash {A B} (m : M A) (k : A → M B) s why s' :
  m s = Crash why s' → bind m k s = Crash why s'.
Proof. intros H. unfold bind. by rewrite H. Qed.

Lemma bind_OutOfFuel {A B} (m : M A) (k : A → M B) s s' :
  m s = OutOfFuel s' → bind m k s = OutOfFuel s'.
Proof. intros H. unfold bind. by rewrite H. Qed.

(** Unfolds the updates of the C runtime in a state written out. *)
Ltac norm :=
  cbv beta iota delta
    [upd_crt set_streams set_heap set_heap_avail set_ub_log set_stdout];
  cbn [crt heap heap_avail streams ub_log stdout window_width window_height
       glfw gl calls s_pos s_content s_open data size].

(** ** The C library *)

Lemma store_bytes_fill fn b (l : list byte) :
  ∀ (pre post : list mval) (s : state),
    heap (crt s) !! b = Some (pre ++ replicate (length l) Undef ++ post) →
    store_bytes fn (Ptr b) (Z.of_nat (length pre)) l s =
    Ret tt (upd_crt (fun c =>
      set_heap (<[b := pre ++ (Init <$> l) ++ post]> (heap c)) c) s).
Proof.
  induction l as [|v l IH]; intros pre post s Hb.
  - destruct s as [[hp av ss ul out] w h gf g cs]. cbn in Hb |- *.
    unfold ret. norm. by rewrite list_insert_id.
  - cbn [store_bytes]. unfold bind, store at 1. unfold bind, gets. rewrite Hb.
    assert (Hin : (0 <=? Z.of_nat (length pre)) &&
       (Z.of_nat (length pre) <?
        Z.of_nat (length (pre ++ replicate (length (v :: l)) Undef ++ post)))
       = true).
    { rewrite !length_app. cbn.
      apply andb_true_iff. split; [apply Z.leb_le | apply Z.ltb_lt]; lia. }
    rewrite Hin. unfold modify. rewrite Nat2Z.id.
    cbn [replicate length app].
    rewrite insert_app_r_alt by lia. rewrite Nat.sub_diag.
    cbn [insert list_insert].
    replace (Z.of_nat (length pre) + 1)
      with (Z.of_nat (length (pre ++ [Init v])))
      by (rewrite length_app; cbn; lia).
    rewrite (IH (pre ++ [Init v]) post).
    + unfold upd_crt, set_heap. cbn. rewrite list_insert_insert_eq.
      rewrite <- !app_assoc. reflexivity.
    + cbn. rewrite list_lookup_insert_eq by (eapply lookup_lt_Some; eauto).
      rewrite <- app_assoc. reflexivity.
Qed.

Section CLibrary.

Variable E : env.

Lemma fopen_found filename mode content s :
  env_files E !! filename = Some content →
  fopen E filename mode s =
  Ret (Some (length (streams (crt s))))
    (upd_crt (fun c => set_streams
       (streams c ++
        [{| s_content := content; s_pos := 0; s_open := true |}]) c) s).
Proof. intros H. unfold fopen. by rewrite H. Qed.

Lemma fopen_missing filename mode s :
  env_files E !! filename = None → fopen E filename mode s = Ret None s.
Proof. intros H. unfold fopen. by rewrite H. Qed.

Lemma the_stream_open fn n f s :
  streams (crt s) !! n = Some f → s_open f = true →
  the_stream fn (Some n) s = Ret (n, f) s.
Proof.
  intros H Ho. unfold the_stream, bind, gets. by rewrite H, Ho.
Qed.

Lemma ftell_open n f s :
  streams (crt s) !! n = Some f → s_open f = true →
  ftell (Some n) s = Ret (s_pos f) s.
Proof.
  intros H Ho. unfold ftell.
  by rewrite (bind_Ret _ _ _ _ _ (the_stream_open _ _ _ _ H Ho)).
Qed.

Lemma fseek_open n f s offset origin :
  streams (crt s) !! n = Some f → s_open f = true →
  let target := match origin with
                | SEEK_SET => offset
                | SEEK_END => Z.of_nat (length (s_content f)) + offset
                end in
  0 ≤ target →
  fseek (Some n) offset origin s =
  Ret 0 (upd_crt (fun c => set_streams
    (<[n := {| s_content := s_content f; s_pos := target;
               s_open := s_open f |}]> (streams c)) c) s).
Proof.
  intros H Ho target Ht. unfold fseek.
  rewrite (bind_Ret _ _ _ _ _ (the_stream_open _ _ _ _ H Ho)).
  fold target. destruct (Z.ltb_spec target 0); [lia | reflexivity].
Qed.

Lemma fclose_open n f s :
  streams (crt s) !! n = Some f → s_open f = true →
  fclose (Some n) s =
  Ret 0 (upd_crt (fun c => set_streams
    (<[n := {| s_content := s_content f; s_pos := s_pos f;
               s_open := false |}]> (streams c)) c) s).
Proof.
  intros H Ho. unfold fclose.
  by rewrite (bind_Ret _ _ _ _ _ (the_stream_open _ _ _ _ H Ho)).
Qed.

Lemma malloc_room n s :
  n ≤ heap_avail (crt s) →
  malloc n s =
  Ret (Ptr (length (heap (crt s))))
    (upd_crt (fun c => set_heap (heap c ++ [replicate (Z.to_nat n) Undef])
                         (set_heap_avail (heap_avail c - n) c)) s).
Proof.
  intros H. unfold malloc, bind, gets.
  destruct (Z.ltb_spec (heap_avail (crt s)) n); [lia | reflexivity].
Qed.


Lemma store_outside fn b blk i v s :
  heap (crt s) !! b = Some blk →
  Z.of_nat (length blk) ≤ i →
  store fn (Ptr b) i v s =
  Ret tt (upd_crt (fun c =>
    set_ub_log
      (ub_log c ++ [OutOfBoundsStore b i (Z.of_nat (length blk))]) c) s).
Proof.
  intros H Hi. unfold store, bind, gets. rewrite H.
  destruct (Z.ltb_spec i (Z.of_nat (length blk))); [lia|].
  by rewrite andb_false_r.
Qed.

Lemma fread_open b sz nmemb n f s :
  streams (crt s) !! n = Some f → s_open f = true →
  fread (Ptr b) sz nmemb (Some n) s =
  (let got := take (Z.to_nat (sz * nmemb))
                (drop (Z.to_nat (s_pos f)) (s_content f)) in
   store_bytes "fread" (Ptr b) 0 got ;;
   put_stream n {| s_content := s_content f;
                   s_pos := s_pos f + Z.of_nat (length got);
                   s_open := s_open f |} ;;
   ret (if sz =? 0 then 0 else Z.of_nat (length got) / sz)) s.
Proof.
  intros H Ho. unfold fread.
  rewrite (bind_Ret _ _ _ _ _ (the_stream_open _ _ _ _ H Ho)).
  destruct (Z.eqb_spec (sz * nmemb) 0) as [Hz|Hz]; [|done].
  rewrite Hz. cbv zeta. change (Z.to_nat 0) with 0%nat. rewrite take_0.
  cbn [store_bytes length Z.of_nat].
  unfold bind, ret, put_stream, modify. rewrite Z.add_0_r.
  destruct s as [[hp av ss ul out] w h gf g cs], f as [fc fp fo].
  cbn in H |- *. norm. rewrite (list_insert_id _ _ _ H).
  by destruct (sz =? 0); rewrite ?Zdiv_0_l.
Qed.



(** The file is there and the allocator has room: the call returns, and
    [after_read] is what it leaves. *)
Lemma read_entire_file_ok filename content s :
  env_files E !! filename = Some content →
  Z.of_nat (length content) < LONG_MAX →
  Z.of_nat (length content) + 1 ≤ heap_avail (crt s) →
  read_entire_file E filename s =
  Ret {| data := Ptr (length (heap (crt s)));
         size := Z.of_nat (length content) + 1 |}
      (upd_crt (after_read content) s).
Proof.
  intros Hf Hlen Hroom. unfold LONG_MAX in Hlen.
  destruct s as [[hp av ss ul out] w h gf g cs]. cbn in Hroom.
  set (n := Z.of_nat (length content)) in *.
  unfold read_entire_file.
  rewrite (bind_Ret _ _ _ _ _ (fopen_found _ _ _ _ Hf)). norm.
  erewrite bind_Ret
    by (eapply ftell_open; [norm; apply list_lookup_middle; done | done]).
  norm. rewrite (to_size_t_small 0), (to_long_small 0) by lia.
  erewrite bind_Ret
    by (eapply fseek_open;
        [norm; apply list_lookup_middle; done | done | norm; lia]).
  norm. rewrite insert_app_r_alt, Nat.sub_diag by lia.
  cbn [insert list_insert].
  erewrite bind_Ret
    by (eapply ftell_open; [norm; apply list_lookup_middle; done | done]).
  norm. rewrite Z.add_0_r. fold n. rewrite (to_size_t_small (n + 1)) by lia.
  erewrite bind_Ret
    by (eapply fseek_open;
        [norm; apply list_lookup_middle; done | done | norm; lia]).
  norm. rewrite insert_app_r_alt, Nat.sub_diag by lia.
  cbn [insert list_insert].
  erewrite bind_Ret by (eapply malloc_room; norm; lia).
  norm.
  replace (n + 1 - 1) with n by lia. rewrite (to_size_t_small n) by lia.
  erewrite bind_Ret.
  2:{ erewrite fread_open; [ | norm; apply list_lookup_middle; done | done ].
      norm. rewrite Z.mul_1_l. unfold n. rewrite Nat2Z.id.
      cbn [Z.to_nat drop]. rewrite firstn_all.
      erewrite bind_Ret.
      2:{ apply (store_bytes_fill "fread" (length hp) content [] [Undef]).
          norm. rewrite list_lookup_middle by done. f_equal. cbn [app].
          replace (Z.to_nat (Z.of_nat (length content) + 1))
            with (S (length content)) by lia.
          by rewrite replicate_S_end. }
      unfold put_stream, bind, modify, ret. reflexivity. }
  norm. unfold modify. norm.
  rewrite (insert_app_r_alt hp), (insert_app_r_alt ss) by lia.
  rewrite !Nat.sub_diag. cbn [insert list_insert app Z.to_nat drop].
  erewrite bind_Ret
    by (eapply fclose_open; [norm; apply list_lookup_middle; done | done]).
  norm. rewrite insert_app_r_alt, Nat.sub_diag by lia.
  cbn [insert list_insert].
  erewrite bind_Ret.
  2:{ eapply store_outside; [norm; apply list_lookup_middle; done|].
      rewrite length_app, length_fmap. cbn [length]. lia. }
  norm. unfold ret, after_read. norm.
  rewrite length_app, length_fmap. cbn [length].
  replace (Z.of_nat (length content + 1))
    with (Z.of_nat (length content) + 1) by lia.
  by rewrite Z.add_0_l.
Qed.

(** No such file: [fopen] gives a null pointer and [ftell] is called on
    it. *)
Lemma read_entire_file_no_file filename s :
  env_files E !! filename = None →
  read_entire_file E filename s = Crash (NullStream "ftell") s.
Proof.
  intros Hf. unfold read_entire_file.
  by rewrite (bind_Ret _ _ _ _ _ (fopen_missing _ _ _ Hf)).
Qed.

End CLibrary.

(** ** The file loader touches the C runtime only *)

Lemma upd_crt_const c s : crt s = c → s = upd_crt (fun _ => c) s.
Proof. intros <-. by destruct s. Qed.

Lemma crt_only_ret {A} (a : A) : crt_only (ret a).
Proof. intros s. cbn. exists (crt s). by apply upd_crt_const. Qed.

Lemma crt_only_crash {A} why : crt_only (@crash A why).
Proof. intros s. cbn. exists (crt s). by apply upd_crt_const. Qed.

Lemma crt_only_gets {A} (f : state → A) : crt_only (gets f).
Proof. intros s. cbn. exists (crt s). by apply upd_crt_const. Qed.

Lemma crt_only_modify f : crt_only (modify (upd_crt f)).
Proof. intros s. cbn. by exists (f (crt s)). Qed.

Lemma crt_only_bind {A B} (m : M A) (k : A → M B) :
  crt_only m → (∀ a, crt_only (k a)) → crt_only (bind m k).
Proof.
  intros Hm Hk s. unfold bind. specialize (Hm s).
  destruct (m s) as [a s1|why s1|s1]; [|done..].
  destruct Hm as [c ->]. specialize (Hk a (upd_crt (fun _ => c) s)).
  destruct (k a _) as [b s2|why s2|s2]; [| |done];
    destruct Hk as [c' ->]; by exists c'.
Qed.

Create HintDb crt_only discriminated.
#[local] Hint Resolve crt_only_ret crt_only_crash crt_only_gets
  crt_only_modify : crt_only.

(** Splits a computation along its binds and case distinctions. *)
Ltac crt_only_step :=
  lazymatch goal with
  | |- crt_only (bind _ _) => apply crt_only_bind; [|intros ?]
  | |- crt_only (match ?x with _ => _ end) => destruct x
  | |- crt_only (let _ := _ in _) => cbv zeta
  | |- _ => solve [auto with crt_only]
  end.

Lemma crt_only_the_stream fn file : crt_only (the_stream fn file).
Proof. unfold the_stream. repeat crt_only_step. Qed.

Lemma crt_only_store fn p i v : crt_only (store fn p i v).
Proof. unfold store, log_ub. repeat crt_only_step. Qed.

#[local] Hint Resolve crt_only_the_stream crt_only_store : crt_only.

Lemma crt_only_store_bytes fn p l : ∀ i, crt_only (store_bytes fn p i l).
Proof.
  induction l as [|v l IH]; intros i; cbn [store_bytes];
    repeat crt_only_step.
Qed.

#[local] Hint Resolve crt_only_store_bytes : crt_only.

Lemma crt_only_read_entire_file E filename :
  crt_only (read_entire_file E filename).
Proof.
  unfold read_entire_file, fopen, ftell, fseek, fread, fclose, malloc,
    put_stream.
  repeat crt_only_step.
Qed.

(** So a call that returns has changed the C runtime and nothing else. *)
Lemma read_entire_file_frame E filename s r s' :
  read_entire_file E filename s = Ret r s' →
  ∃ c, s' = upd_crt (fun _ => c) s.
Proof.
  intros H. pose proof (crt_only_read_entire_file E filename s) as F.
  by rewrite H in F.
Qed.

(** ** Tactics for running the program on a state *)

(** Writes a state out, field by field. *)
Ltac expose :=
  cbv beta iota delta
    [record_call upd_crt upd_glfw upd_gl initial
     set_heap set_heap_avail set_streams set_ub_log set_stdout
     set_should_close set_escape_key set_framebuffer_size_cb set_polls
     set_gl_shader_names set_gl_buffer_names set_gl_vao_names set_gl_buffers
     set_gl_vaos set_gl_array_buffer set_gl_vertex_array set_gl_errors
     set_window_width set_window_height
     crt window_width window_height glfw gl calls
     heap heap_avail streams ub_log stdout
     should_close escape_key framebuffer_size_cb window_size_cb polls
     gl_shader_names gl_buffer_names gl_vao_names gl_buffers gl_vaos
     gl_array_buffer gl_vertex_array gl_errors].

(** Runs the first operation of a sequence on a state written out. *)
Ltac mstep :=
  erewrite bind_Ret;
  [ | cbn -[char_array write_log terminated string_at]; expose;
      reflexivity ];
  cbv beta.

(** Evaluates the names the GL counters give. *)
Ltac names :=
  repeat match goal with
  | |- context [Z.add ?a 1] =>
      lazymatch a with
      | Z0 => change (Z.add a 1) with 1
      | Zpos _ => let v := eval vm_compute in (Z.add a 1) in
                  change (Z.add a 1) with v
      end
  end.

(** ** The render loop *)

Lemma kept_refl s : kept s s.
Proof. by repeat split. Qed.

Lemma kept_trans s1 s2 s3 : kept s1 s2 → kept s2 s3 → kept s1 s3.
Proof.
  intros (A1 & A2 & A3 & A4) (B1 & B2 & B3 & B4).
  repeat split; congruence.
Qed.

Lemma kept_vaos s s' : kept s s' → gl_vaos (gl s') = gl_vaos (gl s).
Proof.
  intros (_ & _ & _ & H).
  apply (f_equal gl_vaos) in H. exact H.
Qed.

Lemma kept_buffers s s' : kept s s' → gl_buffers (gl s') = gl_buffers (gl s).
Proof.
  intros (_ & _ & _ & H).
  apply (f_equal gl_buffers) in H. exact H.
Qed.

(** ** Counting calls *)

Lemma count_calls_app p t1 t2 :
  count_calls p (t1 ++ t2) = (count_calls p t1 + count_calls p t2)%nat.
Proof. unfold count_calls. by rewrite List.filter_app, length_app. Qed.

Lemma count_calls_cons p c t :
  count_calls p (c :: t) =
  ((if p c then 1 else 0) + count_calls p t)%nat.
Proof. unfold count_calls. cbn. by destruct (p c). Qed.

Lemma count_calls_viewport p vt :
  (∀ x y w h, p (GlViewport x y w h) = false) →
  forallb is_viewport vt = true → count_calls p vt = 0%nat.
Proof.
  intros Hp. induction vt as [|c vt IH]; [done|].
  cbn [forallb]. intros [Hc Hvt]%andb_true_iff.
  rewrite count_calls_cons, (IH Hvt).
  destruct c; try discriminate Hc. by rewrite Hp.
Qed.

Lemma existsb_viewport p vt :
  (∀ x y w h, p (GlViewport x y w h) = false) →
  forallb is_viewport vt = true → existsb p vt = false.
Proof.
  intros Hp. induction vt as [|c vt IH]; [done|].
  cbn [forallb existsb]. intros [Hc Hvt]%andb_true_iff.
  rewrite (IH Hvt). destruct c; try discriminate Hc. by rewrite Hp.
Qed.

Lemma loop_calls_viewport vt :
  forallb is_viewport vt = true → forallb is_loop_call vt = true.
Proof.
  induction vt as [|c vt IH]; [done|].
  cbn [forallb]. intros [Hc Hvt]%andb_true_iff.
  rewrite (IH Hvt). by destruct c.
Qed.

Lemma prompt_quiet t :
  count_calls enters_body t = 0%nat →
  (count_calls ends_body t ≤ 1)%nat →
  prompt t = true.
Proof.
  induction t as [|c t IH]; [done|].
  rewrite !count_calls_cons. intros He Hp. cbn [prompt].
  rewrite IH by lia.
  destruct (raises_flag c); [|done].
  rewrite andb_true_r. apply andb_true_iff. split.
  - apply Nat.eqb_eq. lia.
  - apply Nat.leb_le. lia.
Qed.

Lemma prompt_app_no_raise t1 t2 :
  existsb raises_flag t1 = false → prompt (t1 ++ t2) = prompt t2.
Proof.
  induction t1 as [|c t1 IH]; [done|].
  cbn [existsb app prompt]. intros [Hc Ht]%orb_false_iff.
  by rewrite Hc, (IH Ht).
Qed.

Lemma prompt_split pre c post :
  prompt (pre ++ c :: post) = true → raises_flag c = true →
  count_calls enters_body post = 0%nat ∧
  (count_calls ends_body post ≤ 1)%nat.
Proof.
  induction pre as [|d pre IH]; cbn [app prompt].
  - intros [H _]%andb_true_iff Hc. rewrite Hc in H.
    apply andb_true_iff in H as [H1 H2].
    split; [by apply Nat.eqb_eq | by apply Nat.leb_le].
  - intros [_ H]%andb_true_iff. by apply IH.
Qed.

(** The calls of one run of the body. *)
Lemma body_calls_facts w p v key evs vt :
  forallb is_viewport vt = true →
  let tb := body_calls w p v key evs ++ vt in
  count_calls enters_body tb = 0%nat ∧
  count_calls ends_body tb = 1%nat ∧
  existsb raises_flag tb =
    bool_decide (key = GLFW_PRESS) || existsb is_close_request evs ∧
  forallb is_loop_call tb = true.
Proof.
  intros Hvt tb. unfold tb.
  rewrite !count_calls_app, existsb_app, forallb_app.
  rewrite (count_calls_viewport enters_body vt),
    (count_calls_viewport ends_body vt),
    (existsb_viewport raises_flag vt), (loop_calls_viewport vt) by done.
  unfold count_calls, body_calls.
  case_decide;
    [rewrite bool_decide_eq_true_2 by done
    |rewrite bool_decide_eq_false_2 by done];
    cbn; by rewrite ?orb_false_r.
Qed.

Section Loop.
Variable E : env.

(** One event, as [glfwPollEvents] handles it. *)
Lemma handle_event_spec ev s :
  ∃ s' vt,
    handle_event ev s = Ret tt s' ∧
    calls s' = calls s ++ vt ∧
    forallb is_viewport vt = true ∧
    should_close (glfw s') = should_close (glfw s) || is_close_request ev ∧
    polls (glfw s') = polls (glfw s) ∧
    gl s' = gl s ∧
    kept s s' ∧
    (wired s → window_width s' = window_width s ∧
               window_height s' = window_height s).
Proof.
  destruct s as [c ww wh [sc ek fcb wcb pl] g cs].
  destruct ev as [|[|k] a|width height|width height];
    [| | |destruct wcb as [[|]|]|destruct fcb as [[|]|]];
    (eexists _, _; split; [reflexivity|]; cbn;
     split; [symmetry; first [apply app_nil_r | reflexivity]|]);
    repeat split; cbn; rewrite ?orb_true_r, ?orb_false_r; try done;
    match goal with
    | H : wired _ |- _ => destruct H as [? ?]; by simplify_eq/=
    end.
Qed.

Lemma handle_events_spec evs : ∀ s,
  ∃ s' vt,
    handle_events evs s = Ret tt s' ∧
    calls s' = calls s ++ vt ∧
    forallb is_viewport vt = true ∧
    should_close (glfw s') =
      should_close (glfw s) || existsb is_close_request evs ∧
    polls (glfw s') = polls (glfw s) ∧
    gl s' = gl s ∧
    kept s s' ∧
    (wired s → window_width s' = window_width s ∧
               window_height s' = window_height s).
Proof.
  induction evs as [|ev evs IH]; intros s.
  - exists s, []. cbn. rewrite app_nil_r, orb_false_r.
    repeat split; try done.
  - destruct (handle_event_spec ev s)
      as (s1 & vt1 & R1 & C1 & V1 & F1 & P1 & G1 & K1 & W1).
    destruct (IH s1) as (s2 & vt2 & R2 & C2 & V2 & F2 & P2 & G2 & K2 & W2).
    exists s2, (vt1 ++ vt2). cbn [handle_events existsb].
    rewrite (bind_Ret _ _ _ _ _ R1).
    split; [done|]. split; [by rewrite C2, C1, app_assoc|].
    split; [by rewrite forallb_app, V1, V2|].
    split; [by rewrite F2, F1, orb_assoc|].
    split; [congruence|]. split; [congruence|].
    split; [by eapply kept_trans|].
    intros Hw. destruct (W1 Hw) as [? ?].
    assert (wired s1) as Hw1.
    { destruct Hw as [? ?], K1 as (_ & ? & ? & _). split; congruence. }
    destruct (W2 Hw1) as [? ?]. split; congruence.
Qed.

Lemma loop_body_spec w p v s :
  ∃ s' vt,
    loop_body E w p v s = Ret tt s' ∧
    calls s' = calls s ++
      body_calls w p v (escape_key (glfw s))
        (env_events E (polls (glfw s))) ++ vt ∧
    forallb is_viewport vt = true ∧
    should_close (glfw s') =
      should_close (glfw s) ||
      bool_decide (escape_key (glfw s) = GLFW_PRESS) ||
      existsb is_close_request (env_events E (polls (glfw s))) ∧
    polls (glfw s') = S (polls (glfw s)) ∧
    (is_Some (gl_vaos (gl s) !! v) → kept s s') ∧
    (wired s → wired s' ∧ window_width s' = window_width s ∧
               window_height s' = window_height s).
Proof.
  destruct s as [c ww wh [sc ek fcb wcb pl] g cs].
  unfold loop_body.
  assert (∃ s1, process_input w
            {| crt := c; window_width := ww; window_height := wh;
               glfw := {| should_close := sc; escape_key := ek;
                          framebuffer_size_cb := fcb; window_size_cb := wcb;
                          polls := pl |};
               gl := g; calls := cs |} = Ret tt s1 ∧
          crt s1 = c ∧ window_width s1 = ww ∧ window_height s1 = wh ∧
          glfw s1 = {| should_close := sc || bool_decide (ek = GLFW_PRESS);
                       escape_key := ek;
                       framebuffer_size_cb := fcb; window_size_cb := wcb;
                       polls := pl |} ∧
          gl s1 = g ∧
          calls s1 = cs ++ [GlfwGetKey w GLFW_KEY_ESCAPE ek] ++
            (if decide (ek = GLFW_PRESS)
             then [GlfwSetWindowShouldClose w true] else []))
    as (s1 & R1 & ? & ? & ? & ? & ? & ?).
  { destruct ek; eexists; (split; [cbn; reflexivity|]); cbn;
      rewrite ?orb_true_r, ?orb_false_r, <- ?app_assoc; done. }
  rewrite (bind_Ret _ _ _ _ _ R1). destruct s1 as [c1 ww1 wh1 gf1 g1 cs1].
  simplify_eq/=.
  do 7 mstep.
  unfold glfwPollEvents. do 3 mstep.
  match goal with |- context [handle_events ?evs ?s0] =>
    destruct (handle_events_spec evs s0)
      as (s2 & vt & R & C & V & F & P & G & K & W)
  end.
  exists s2, vt. cbn in R, C, F, P, G, K, W |- *.
  split; [done|]. split.
  { rewrite C. unfold body_calls. by rewrite <- !app_assoc. }
  split; [done|]. split; [done|]. split; [done|].
  split.
  - intros Hv. destruct K as (K1 & K2 & K3 & K4).
    repeat split; try done. rewrite K4.
    destruct g; cbn in Hv; expose.
    by rewrite (bool_decide_eq_true_2 _ Hv), orb_true_r.
  - intros Hw. assert (Hw' := Hw). destruct Hw' as [Hw1 Hw2]. cbn in Hw1, Hw2.
    destruct K as (K1 & K2 & K3 & K4). cbn in K2, K3.
    split; [split; congruence|]. apply W. split; done.
Qed.

Lemma render_loop_spec fuel : ∀ w p v s,
  ∃ t,
    calls (final (render_loop E fuel w p v s)) = calls s ++ t ∧
    forallb is_loop_call t = true ∧
    prompt t = true ∧
    (should_close (glfw s) = true →
       (t = [] ∨ t = [GlfwWindowShouldClose w true]) ∧
       should_close (glfw (final (render_loop E fuel w p v s))) = true) ∧
    (∀ a s', render_loop E fuel w p v s = Ret a s' →
       should_close (glfw s') = true ∧
       last t = Some (GlfwWindowShouldClose w true)) ∧
    (∀ why s', render_loop E fuel w p v s ≠ Crash why s') ∧
    (is_Some (gl_vaos (gl s) !! v) →
       kept s (final (render_loop E fuel w p v s))) ∧
    (wired s →
       wired (final (render_loop E fuel w p v s)) ∧
       window_width (final (render_loop E fuel w p v s)) = window_width s ∧
       window_height (final (render_loop E fuel w p v s)) =
         window_height s).
Proof.
  induction fuel as [|fuel IH]; intros w p v s.
  - exists []. cbn. rewrite app_nil_r.
    split; [done|]. split; [done|]. split; [done|]. split; [auto|].
    split; [done|]. split; [done|]. split; [intros; apply kept_refl|].
    intros Hw. done.
  - destruct s as [c ww wh [sc ek fcb wcb pl] g cs].
    match goal with |- context [render_loop E (S fuel) w p v ?s] =>
      assert (render_loop E (S fuel) w p v s =
              (if sc then ret tt
               else loop_body E w p v ;; render_loop E fuel w p v)
                (record_call (GlfwWindowShouldClose w sc) s)) as ->
    end.
    { cbn [render_loop]. unfold glfwWindowShouldClose.
      mstep. by destruct sc. }
    destruct sc.
    + exists [GlfwWindowShouldClose w true]. cbn.
      split; [done|]. split; [done|]. split; [done|]. split; [auto|].
      split; [by intros a s' [= <- <-]|]. split; [done|].
      split; [intros; by repeat split|].
      intros Hw. done.
    + match goal with |- context [bind ?m ?k ?s0] =>
        destruct (loop_body_spec w p v s0)
          as (s1 & vt & R & C & V & F & P & K & W)
      end.
      rewrite (bind_Ret _ _ _ _ _ R).
      destruct (body_calls_facts w p v ek (env_events E pl) vt V)
        as (B1 & B2 & B3 & B4).
      destruct (IH w p v s1) as (t' & C' & L' & P' & M' & R' & N' & K' & W').
      cbn [calls record_call glfw gl should_close escape_key polls orb]
        in C, F, P, K.
      exists (GlfwWindowShouldClose w false ::
              (body_calls w p v ek (env_events E pl) ++ vt) ++ t').
      split.
      { rewrite C', C. cbn [calls record_call]. rewrite <- !app_assoc.
        reflexivity. }
      split.
      { cbn [forallb is_loop_call]. by rewrite forallb_app, B4, L'. }
      split.
      { cbn [prompt raises_flag]. rewrite andb_true_l.
        destruct (existsb raises_flag
                    (body_calls w p v ek (env_events E pl) ++ vt)) eqn:Hr.
        - rewrite <- B3 in F.
          destruct (M' F) as [Ht' _].
          apply prompt_quiet; rewrite count_calls_app, ?B1, ?B2;
            destruct Ht' as [-> | ->]; cbn; lia.
        - by rewrite prompt_app_no_raise. }
      split; [done|].
      split.
      { intros a s' Hret. destruct (R' a s' Hret) as [? Hl]. split; [done|].
        destruct t' as [|x t']; [done|].
        rewrite app_comm_cons, last_app. by rewrite Hl. }
      split; [done|].
      split.
      { intros Hv. eapply kept_trans; [apply (K Hv)|].
        apply K'. rewrite (kept_vaos _ _ (K Hv)). exact Hv. }
      intros Hw. destruct (W Hw) as (Hw1 & ? & ?).
      destruct (W' Hw1) as (? & ? & ?). cbn in *.
      split; [done|]. split; congruence.
Qed.
End Loop.

(** One more test of the loop condition. *)
Lemma render_loop_S E fuel w p v s :
  render_loop E (S fuel) w p v s =
  (if should_close (glfw s) then ret tt
   else loop_body E w p v ;; render_loop E fuel w p v)
    (record_call (GlfwWindowShouldClose w (should_close (glfw s))) s).
Proof.
  destruct s as [c ww wh [sc ek fcb wcb pl] g cs].
  cbn [render_loop]. unfold glfwWindowShouldClose.
  mstep. by destruct sc.
Qed.

(** A close request in the events of some later poll ends the loop: with
    two tests more than polls until then, the loop returns. *)
Lemma render_loop_returns E w p v n : ∀ s,
  existsb is_close_request (env_events E (polls (glfw s) + n)) = true →
  ∃ s', render_loop E (n + 2) w p v s = Ret tt s'.
Proof.
  induction n as [|n IH]; intros s Hclose.
  - rewrite Nat.add_0_r in Hclose. cbn [Nat.add].
    rewrite render_loop_S. destruct (should_close (glfw s)) eqn:Hs.
    { by eexists. }
    destruct (loop_body_spec E w p v
                (record_call (GlfwWindowShouldClose w false) s))
      as (s1 & vt & R & _ & _ & F & _).
    rewrite (bind_Ret _ _ _ _ _ R).
    cbn [glfw record_call polls] in F. rewrite Hclose, orb_true_r in F.
    rewrite render_loop_S, F. by eexists.
  - cbn [Nat.add]. rewrite render_loop_S.
    destruct (should_close (glfw s)) eqn:Hs.
    { by eexists. }
    destruct (loop_body_spec E w p v
                (record_call (GlfwWindowShouldClose w false) s))
      as (s1 & vt & R & _ & _ & _ & P & _).
    rewrite (bind_Ret _ _ _ _ _ R). apply IH.
    cbn [glfw record_call polls] in P. rewrite P.
    by replace (S (polls (glfw s)) + n)%nat with (polls (glfw s) + S n)%nat
      by lia.
Qed.

(** A call that raises the close flag leaves it set to the end of the
    run. *)
Lemma render_loop_raised E fuel : ∀ w p v s t,
  calls (final (render_loop E fuel w p v s)) = calls s ++ t →
  existsb raises_flag t = true →
  should_close (glfw (final (render_loop E fuel w p v s))) = true.
Proof.
  induction fuel as [|fuel IH]; intros w p v s t.
  - cbn. intros Ht. rewrite <- (app_nil_r (calls s)) in Ht at 1.
    by apply app_inv_head in Ht as <-.
  - rewrite render_loop_S. destruct (should_close (glfw s)) eqn:Hs.
    { by cbn. }
    destruct (loop_body_spec E w p v
                (record_call (GlfwWindowShouldClose w false) s))
      as (s1 & vt & R & C & V & F & _).
    rewrite (bind_Ret _ _ _ _ _ R).
    destruct (body_calls_facts w p v (escape_key (glfw s))
                (env_events E (polls (glfw s))) vt V) as (_ & _ & B3 & _).
    destruct (render_loop_spec E fuel w p v s1)
      as (t' & C' & _ & _ & M' & _).
    cbn [calls record_call glfw should_close escape_key polls] in C, F.
    rewrite Hs, orb_false_l, <- B3 in F.
    rewrite C', C, <- !app_assoc. intros Ht. apply app_inv_head in Ht as <-.
    cbn [app existsb raises_flag orb]. rewrite app_assoc, existsb_app.
    intros [Hb | Ht']%orb_true_iff.
    + apply M'. by rewrite F.
    + by apply (IH w p v s1 t').
Qed.

(** Once the close flag is set the next test of the condition ends the
    loop: a run that ends with the flag set returns when it is given one
    more test, and makes no further call but that test. *)
Lemma render_loop_exits E fuel : ∀ w p v s,
  should_close (glfw (final (render_loop E fuel w p v s))) = true →
  ∃ s',
    render_loop E (S fuel) w p v s = Ret tt s' ∧
    (calls s' = calls (final (render_loop E fuel w p v s)) ∨
     calls s' = calls (final (render_loop E fuel w p v s)) ++
                [GlfwWindowShouldClose w true]).
Proof.
  induction fuel as [|fuel IH]; intros w p v s.
  - change (render_loop E 0 w p v s) with (@OutOfFuel unit s).
    cbn [final]. intros Hs.
    rewrite render_loop_S, Hs. eexists. split; [reflexivity|]. by right.
  - rewrite (render_loop_S E (S fuel)), (render_loop_S E fuel).
    destruct (should_close (glfw s)) eqn:Hs.
    { intros _. eexists. split; [reflexivity|]. by left. }
    destruct (loop_body_spec E w p v
                (record_call (GlfwWindowShouldClose w false) s))
      as (s1 & vt & R & _).
    rewrite !(bind_Ret _ _ _ _ _ R). apply IH.
Qed.

(** ** [main] up to the loop *)

(** ** Strings *)

Lemma terminated_app_zero (l : list byte) (rest : list mval) :
  terminated ((Init <$> l) ++ Init x00 :: rest) = true.
Proof.
  induction l as [|b l IH]; [done|].
  cbn [fmap list_fmap app terminated]. by rewrite IH, orb_true_r.
Qed.

(** An info log written to an array of 512 is a string. *)
Lemma terminated_write_log log buf :
  terminated (write_log 512 log buf) = true.
Proof. unfold write_log. cbn [Z.leb Z.compare]. apply terminated_app_zero. Qed.

Lemma printf_string format a s :
  terminated a = true →
  printf format [a] s =
  Ret tt (upd_crt (fun c =>
            set_stdout (stdout c ++ [Printf format [a]]) c) s).
Proof. intros H. unfold printf. cbn [forallb]. by rewrite H. Qed.

Lemma printf_no_string format a s :
  terminated a = false →
  printf format [a] s =
  Ret tt (upd_crt (fun c =>
            set_stdout (stdout c ++ [Printf format [a]])
              (set_ub_log (ub_log c ++ [UnterminatedString "printf"]) c))
            s).
Proof.
  intros H. unfold printf. cbn [forallb]. rewrite H.
  by destruct s as [[hp av ss ul out] w h gf g cs].
Qed.

Lemma bind_assoc {A B C} (m : M A) (k : A → M B) (k' : B → M C) s :
  bind (bind m k) k' s = bind m (fun a => bind (k a) k') s.
Proof. unfold bind. by destruct (m s). Qed.

(** One [printf] of an array: of an info log that was written, or of an
    array that never was. *)
Ltac pstep :=
  first
    [ erewrite bind_Ret;
      [ | apply printf_string; apply terminated_write_log ]
    | erewrite bind_Ret;
      [ | apply printf_no_string; vm_compute; reflexivity ] ];
  expose; cbv beta.

Section Main.
Variable E : env.

Lemma reads_ok vs fs :
  loads E vs fs →
  read_entire_file E (SRC_PATH "vertex_shader.glsl") (initial E) =
    Ret {| data := Ptr 0; size := Z.of_nat (length vs) + 1 |}
        (upd_crt (after_read vs) (initial E)) ∧
  read_entire_file E (SRC_PATH "fragment_shader.glsl")
      (upd_crt (after_read vs) (initial E)) =
    Ret {| data := Ptr 1; size := Z.of_nat (length fs) + 1 |}
        (upd_crt (fun _ => loaded E vs fs) (initial E)).
Proof.
  intros (Hv & Hf & Lv & Lf & Hroom). split.
  - rewrite (read_entire_file_ok E _ vs); [done..|]. cbn. lia.
  - rewrite (read_entire_file_ok E _ fs); [done..|]. cbn. lia.
Qed.

(** The run of [main] behind the two reads, window creation failing. *)
Lemma main_no_window fuel vs fs c s1 :
  read_entire_file E (SRC_PATH "vertex_shader.glsl") (initial E) =
    Ret vs s1 →
  read_entire_file E (SRC_PATH "fragment_shader.glsl") s1 =
    Ret fs (upd_crt (fun _ => c) (initial E)) →
  env_glfwCreateWindow E = None →
  main E fuel (initial E) =
  Ret (-1)
    {| crt := set_stdout
         (stdout c ++ [Printf "Failed to create GLFW window\n" []]) c;
       window_width := 1280;
       window_height := 720;
       glfw := glfw (initial E);
       gl := gl (initial E);
       calls := startup_calls ++ [GlfwTerminate] |}.
Proof.
  intros H1 H2 Hw. unfold main.
  rewrite (bind_Ret _ _ _ _ _ H1), (bind_Ret _ _ _ _ _ H2).
  destruct c as [hp av ss ul out]. expose.
  do 6 mstep. rewrite Hw. do 2 mstep. reflexivity.
Qed.

(** The same, the window created and the loader failing. *)
Lemma main_no_loader fuel vs fs c s1 :
  read_entire_file E (SRC_PATH "vertex_shader.glsl") (initial E) =
    Ret vs s1 →
  read_entire_file E (SRC_PATH "fragment_shader.glsl") s1 =
    Ret fs (upd_crt (fun _ => c) (initial E)) →
  env_glfwCreateWindow E = Some TheWindow →
  (env_gladLoadGLLoader E =? 0) = true →
  main E fuel (initial E) =
  Ret (-1)
    {| crt := set_stdout
         (stdout c ++ [Printf "Failed to initialize GLAD\n" []]) c;
       window_width := 1280;
       window_height := 720;
       glfw := set_framebuffer_size_cb (Some fn_framebuffer_size_callback)
                 (glfw (initial E));
       gl := gl (initial E);
       calls := startup_calls ++
         [GlfwMakeContextCurrent TheWindow;
          GlfwSetFramebufferSizeCallback TheWindow
            fn_framebuffer_size_callback;
          GladLoadGLLoader] |}.
Proof.
  intros H1 H2 Hw Hg. unfold main.
  rewrite (bind_Ret _ _ _ _ _ H1), (bind_Ret _ _ _ _ _ H2).
  destruct c as [hp av ss ul out]. expose.
  do 6 mstep. rewrite Hw. do 3 mstep. rewrite Hg. mstep. reflexivity.
Qed.

(** The same, the window created and the loader succeeding: the run is at
    the loop in the state [at_loop]. *)
Lemma main_reaches_loop fuel vs fs c s1 :
  read_entire_file E (SRC_PATH "vertex_shader.glsl") (initial E) =
    Ret vs s1 →
  read_entire_file E (SRC_PATH "fragment_shader.glsl") s1 =
    Ret fs (upd_crt (fun _ => c) (initial E)) →
  env_glfwCreateWindow E = Some TheWindow →
  (env_gladLoadGLLoader E =? 0) = false →
  main E fuel (initial E) =
  (render_loop E fuel TheWindow shader_program RECT_VAO ;;
   glfwTerminate ;; ret 0) (at_loop E (data vs) (data fs) c).
Proof.
  intros H1 H2 Hw Hg. unfold main.
  rewrite (bind_Ret _ _ _ _ _ H1), (bind_Ret _ _ _ _ _ H2).
  destruct c as [hp av ss ul out]. expose.
  unfold at_loop, setup_calls, shader_calls, link_check_calls, report,
    vs_infolog, fs_infolog, vs_failed, fs_failed, sp_failed, source_read,
    vertex_shader, fragment_shader, shader_program, RECT_VAO.
  do 6 mstep. rewrite Hw. do 3 mstep. rewrite Hg.
  repeat mstep. names.
  destruct (fst (env_compile E 1) =? 0);
    repeat (mstep || pstep || rewrite bind_assoc); names;
    (destruct (fst (env_compile E 2) =? 0);
     repeat (mstep || pstep || rewrite bind_assoc); names;
     (destruct (env_garbage E "sp_success" =? 0);
      repeat (mstep || pstep || rewrite bind_assoc); names)).
  all: f_equal; expose; f_equal.
  all: rewrite <- ?app_assoc, ?app_nil_r; cbn [app andb negb].
  all: try reflexivity.
  all: vm_compute; reflexivity.
Qed.

(** [main] does not look at what [glfwInit] returns. *)
Lemma glfwInit_unused r fuel s :
  main (with_glfwInit r E) fuel s = main E fuel s.
Proof. reflexivity. Qed.

End Main.

(** ** [main] as a whole *)

Lemma at_loop_wired E vs fs c : wired (at_loop E vs fs c).
Proof. by split. Qed.

Lemma at_loop_vao E vs fs c :
  is_Some (gl_vaos (gl (at_loop E vs fs c)) !! RECT_VAO).
Proof. by eexists. Qed.

Lemma existsb_excluded {A} (p q : A → bool) (t : list A) :
  (∀ c, p c = true → q c = false) →
  forallb p t = true → existsb q t = false.
Proof.
  intros Hpq. induction t as [|c t IH]; [done|].
  cbn [forallb existsb]. intros [Hc Ht]%andb_true_iff.
  by rewrite (Hpq c Hc), (IH Ht).
Qed.

Lemma forallb_weaken {A} (p q : A → bool) (t : list A) :
  (∀ c, p c = true → q c = true) →
  forallb p t = true → forallb q t = true.
Proof.
  intros Hpq. induction t as [|c t IH]; [done|].
  cbn [forallb]. intros [Hc Ht]%andb_true_iff.
  by rewrite (Hpq c Hc), (IH Ht).
Qed.

Lemma prompt_snoc t c :
  raises_flag c = false → enters_body c = false → ends_body c = false →
  prompt (t ++ [c]) = prompt t.
Proof.
  intros Hr He Hp. induction t as [|d t IH]; cbn [app prompt].
  - by rewrite Hr.
  - rewrite IH, !count_calls_app, !count_calls_cons, He, Hp.
    unfold count_calls. cbn [List.filter length].
    by rewrite !Nat.add_0_r.
Qed.

(** A run from the state [at_loop] on: the loop, then [glfwTerminate]. *)
Lemma run_from_loop E fuel vs fs c :
  let s0 := at_loop E vs fs c in
  let o := (render_loop E fuel TheWindow shader_program RECT_VAO ;;
            glfwTerminate ;; ret 0) s0 in
  ∃ t,
    calls (final o) = setup_calls E vs fs ++ t ∧
    forallb (fun c => is_loop_call c || is_terminate c) t = true ∧
    prompt t = true ∧
    crt (final o) = crt s0 ∧
    kept s0 (final o) ∧
    window_width (final o) = 1280 ∧
    window_height (final o) = 720 ∧
    (∀ v s', o = Ret v s' →
       v = 0 ∧ should_close (glfw s') = true ∧
       ∃ pre, t = pre ++ [GlfwWindowShouldClose TheWindow true;
                          GlfwTerminate]) ∧
    (∀ why s', o ≠ Crash why s').
Proof.
  intros s0 o.
  destruct (render_loop_spec E fuel TheWindow shader_program RECT_VAO s0)
    as (t & C & L & P & _ & R & N & K & W).
  specialize (K (at_loop_vao E vs fs c)).
  destruct (W (at_loop_wired E vs fs c)) as (_ & Ww & Wh).
  unfold o, bind.
  destruct (render_loop E fuel TheWindow shader_program RECT_VAO s0)
    as [[] sL|why sL|sL] eqn:Ho; cbn [final] in *.
  - destruct (R tt sL eq_refl) as [Hsc Hlast].
    exists (t ++ [GlfwTerminate]). cbn.
    split; [by rewrite C, app_assoc|].
    split.
    { rewrite forallb_app. cbn. rewrite andb_true_r.
      eapply forallb_weaken; [|exact L]. by intros c' ->. }
    split.
    { by rewrite prompt_snoc. }
    split; [by destruct K|].
    split; [done|]. split; [done|]. split; [done|].
    split; [|done].
    intros v s' [= <- <-]. split; [done|]. split; [done|].
    apply last_Some in Hlast as [pre ->]. exists pre. by rewrite <- app_assoc.
  - by destruct (N why sL).
  - exists t. cbn.
    split; [done|].
    split. { eapply forallb_weaken; [|exact L]. by intros c' ->. }
    split; [done|].
    split; [by destruct K|].
    split; [done|]. split; [done|]. split; [done|].
    split; done.
Qed.

(** Every run of [main]: it ends in one of the two file reads, or returns
    -1 from one of the two start-up tests, or enters the loop. *)
Lemma main_cases E fuel :
  (∃ why c,
     main E fuel (initial E) = Crash why (upd_crt (fun _ => c) (initial E))) ∨
  (∃ s,
     main E fuel (initial E) = Ret (-1) s ∧
     window_width s = 1280 ∧ window_height s = 720 ∧
     (env_glfwCreateWindow E = None ∨ env_gladLoadGLLoader E = 0)) ∨
  (∃ vs fs c,
     env_glfwCreateWindow E = Some TheWindow ∧
     env_gladLoadGLLoader E ≠ 0 ∧
     main E fuel (initial E) =
       (render_loop E fuel TheWindow shader_program RECT_VAO ;;
        glfwTerminate ;; ret 0) (at_loop E vs fs c)).
Proof.
  pose proof (crt_only_read_entire_file E
                (SRC_PATH "vertex_shader.glsl") (initial E)) as F1.
  destruct (read_entire_file E (SRC_PATH "vertex_shader.glsl") (initial E))
    as [vs s1|why s1|s1] eqn:R1; [|left|done].
  2:{ destruct F1 as [c ->]. exists why, c. unfold main.
      by rewrite (bind_Crash _ _ _ _ _ R1). }
  destruct F1 as [c1 ->].
  pose proof (crt_only_read_entire_file E
                (SRC_PATH "fragment_shader.glsl")
                (upd_crt (fun _ => c1) (initial E))) as F2.
  destruct (read_entire_file E (SRC_PATH "fragment_shader.glsl")
              (upd_crt (fun _ => c1) (initial E)))
    as [fs s2|why s2|s2] eqn:R2; [|left|done].
  2:{ destruct F2 as [c ->]. exists why, c. unfold main.
      by rewrite (bind_Ret _ _ _ _ _ R1), (bind_Crash _ _ _ _ _ R2). }
  destruct F2 as [c2 ->].
  change (upd_crt (fun _ => c2) (upd_crt (fun _ => c1) (initial E)))
    with (upd_crt (fun _ => c2) (initial E)) in R2.
  right.
  destruct (env_glfwCreateWindow E) as [[]|] eqn:Hw.
  - destruct (env_gladLoadGLLoader E =? 0) eqn:Hg.
    + left. eexists. rewrite (main_no_loader E fuel vs fs c2 _ R1 R2 Hw Hg).
      split; [done|]. split; [done|]. split; [done|].
      right. by apply Z.eqb_eq.
    + right. exists (data vs), (data fs), c2.
      split; [done|]. split; [by apply Z.eqb_neq|].
      by apply (main_reaches_loop E fuel vs fs c2 _ R1 R2 Hw Hg).
  - left. eexists. rewrite (main_no_window E fuel vs fs c2 _ R1 R2 Hw).
    split; [done|]. split; [done|]. split; [done|]. by left.
Qed.

(** The same, with the two reads done once for every number of tests. *)
Lemma main_cases_any_fuel E :
  (∃ why c, ∀ fuel,
     main E fuel (initial E) = Crash why (upd_crt (fun _ => c) (initial E))) ∨
  (∃ s, should_close (glfw s) = false ∧
     ∀ fuel, main E fuel (initial E) = Ret (-1) s) ∨
  (∃ vs fs c, ∀ fuel,
     main E fuel (initial E) =
       (render_loop E fuel TheWindow shader_program RECT_VAO ;;
        glfwTerminate ;; ret 0) (at_loop E vs fs c)).
Proof.
  pose proof (crt_only_read_entire_file E
                (SRC_PATH "vertex_shader.glsl") (initial E)) as F1.
  destruct (read_entire_file E (SRC_PATH "vertex_shader.glsl") (initial E))
    as [vs s1|why s1|s1] eqn:R1; [|left|done].
  2:{ destruct F1 as [c ->]. exists why, c. intros fuel. unfold main.
      by rewrite (bind_Crash _ _ _ _ _ R1). }
  destruct F1 as [c1 ->].
  pose proof (crt_only_read_entire_file E
                (SRC_PATH "fragment_shader.glsl")
                (upd_crt (fun _ => c1) (initial E))) as F2.
  destruct (read_entire_file E (SRC_PATH "fragment_shader.glsl")
              (upd_crt (fun _ => c1) (initial E)))
    as [fs s2|why s2|s2] eqn:R2; [|left|done].
  2:{ destruct F2 as [c ->]. exists why, c. intros fuel. unfold main.
      by rewrite (bind_Ret _ _ _ _ _ R1), (bind_Crash _ _ _ _ _ R2). }
  destruct F2 as [c2 ->].
  change (upd_crt (fun _ => c2) (upd_crt (fun _ => c1) (initial E)))
    with (upd_crt (fun _ => c2) (initial E)) in R2.
  right.
  destruct (env_glfwCreateWindow E) as [[]|] eqn:Hw.
  - destruct (env_gladLoadGLLoader E =? 0) eqn:Hg.
    + left. eexists. split; [|intros fuel;
        apply (main_no_loader E fuel vs fs c2 _ R1 R2 Hw Hg)]. done.
    + right. exists (data vs), (data fs), c2. intros fuel.
      by apply (main_reaches_loop E fuel vs fs c2 _ R1 R2 Hw Hg).
  - left. eexists. split; [|intros fuel;
      apply (main_no_window E fuel vs fs c2 _ R1 R2 Hw)]. done.
Qed.

(** The run when the files load, the window is created and the loader
    succeeds. *)
Lemma main_enters_loop E vs fs fuel :
  loads E vs fs →
  env_glfwCreateWindow E = Some TheWindow →
  env_gladLoadGLLoader E ≠ 0 →
  main E fuel (initial E) =
  (render_loop E fuel TheWindow shader_program RECT_VAO ;;
   glfwTerminate ;; ret 0) (entry E vs fs).
Proof.
  intros Hl Hw Hg. destruct (reads_ok E vs fs Hl) as [R1 R2].
  apply Z.eqb_neq in Hg.
  apply (main_reaches_loop E fuel _ _ _ _ R1 R2 Hw Hg).
Qed.

(** ** Lists of calls and info logs *)

Lemma demo_loads frag garbage :
  loads (demo_env frag garbage) ["v"; "s"]%byte ["f"]%byte.
Proof. repeat split; cbn; lia. Qed.

Lemma count_excluded (p q : call → bool) (t : list call) :
  (∀ c, p c = true → q c = false) →
  forallb p t = true → count_calls q t = 0%nat.
Proof.
  intros Hpq. induction t as [|c t IH]; [done|].
  cbn [forallb]. intros [Hc Ht]%andb_true_iff.
  by rewrite count_calls_cons, (Hpq c Hc), (IH Ht).
Qed.

Lemma write_log_length log buf :
  length buf = 512%nat → length (write_log 512 log buf) = 512%nat.
Proof.
  intros Hb. unfold write_log. cbn [Z.leb Z.compare].
  rewrite !length_app, length_fmap, length_drop, length_take, Hb.
  cbn [length]. change (Z.to_nat (512 - 1)) with 511%nat. lia.
Qed.

Lemma fs_infolog_length E : length (fs_infolog E) = 512%nat.
Proof.
  unfold fs_infolog. destruct (fs_failed E).
  - apply write_log_length. apply length_replicate.
  - apply length_replicate.
Qed.

Lemma loop_calls_no_link_query c :
  is_loop_call c || is_terminate c = true → queries_link_status c = false.
Proof. destruct c; cbn; try done; discriminate. Qed.

(** * The file loader *)

(** C1.  For a file of [fileSize] bytes that is there (and for which the
    allocator has room), [read_entire_file] returns a record whose [size] is
    [fileSize + 1] and whose [data] points to a block allocated by this
    call, of exactly [fileSize + 1] bytes: the first [fileSize] of them are
    the content of the file, the last one is never written and stays
    indeterminate. *)
Theorem read_entire_file_buffer E filename content s :
  env_files E !! filename = Some content →
  Z.of_nat (length content) < LONG_MAX →
  Z.of_nat (length content) + 1 ≤ heap_avail (crt s) →
  ∃ b blk s',
    read_entire_file E filename s =
      Ret {| data := Ptr b; size := Z.of_nat (length content) + 1 |} s' ∧
    heap (crt s) !! b = None ∧
    heap (crt s') !! b = Some blk ∧
    Z.of_nat (length blk) = Z.of_nat (length content) + 1 ∧
    take (length content) blk = Init <$> content ∧
    blk !! length content = Some Undef.
Proof.
  intros Hf Hlen Hroom.
  exists (length (heap (crt s))), ((Init <$> content) ++ [Undef]),
    (upd_crt (after_read content) s).
  split; [by apply read_entire_file_ok|].
  split; [apply lookup_ge_None; lia|].
  split; [cbn; by apply list_lookup_middle|].
  split; [rewrite length_app, length_fmap; cbn; lia|].
  split.
  - rewrite take_app_length'; [done | by rewrite length_fmap].
  - apply list_lookup_middle. by rewrite length_fmap.
Qed.

Lemma read_entire_file_buffer_witness :
  let E := demo_env 1 1 in
  let content := ["v"; "s"]%byte in
  ∃ b blk s',
    read_entire_file E (SRC_PATH "vertex_shader.glsl") (initial E) =
      Ret {| data := Ptr b; size := Z.of_nat (length content) + 1 |} s' ∧
    heap (crt (initial E)) !! b = None ∧
    heap (crt s') !! b = Some blk ∧
    Z.of_nat (length blk) = Z.of_nat (length content) + 1 ∧
    take (length content) blk = Init <$> content ∧
    blk !! length content = Some Undef.
Proof.
  intros E content.
  apply (read_entire_file_buffer E (SRC_PATH "vertex_shader.glsl") content);
    [reflexivity | reflexivity | cbn; lia].
Defined.

(** C2.  Whenever [read_entire_file] gets as far as the store of the
    terminator (the file is there and [malloc] has returned a block), the
    store goes to index [size] of a block that was allocated with exactly
    [size] bytes, whose indices end at [size - 1]: it is out of bounds, and
    it is the one thing the call adds to the log of undefined behaviour. *)
Theorem read_entire_file_terminator_out_of_bounds E filename content s :
  env_files E !! filename = Some content →
  Z.of_nat (length content) < LONG_MAX →
  Z.of_nat (length content) + 1 ≤ heap_avail (crt s) →
  ∃ b blk r s',
    read_entire_file E filename s = Ret r s' ∧
    data r = Ptr b ∧
    heap (crt s') !! b = Some blk ∧
    Z.of_nat (length blk) = size r ∧
    blk !! Z.to_nat (size r) = None ∧
    ub_log (crt s') =
      ub_log (crt s) ++ [OutOfBoundsStore b (size r) (size r)].
Proof.
  intros Hf Hlen Hroom.
  exists (length (heap (crt s))), ((Init <$> content) ++ [Undef]),
    {| data := Ptr (length (heap (crt s)));
       size := Z.of_nat (length content) + 1 |},
    (upd_crt (after_read content) s).
  split; [by apply read_entire_file_ok|].
  split; [done|].
  split; [cbn; by apply list_lookup_middle|].
  split; [rewrite length_app, length_fmap; cbn; lia|].
  split; [|done].
  apply lookup_ge_None. rewrite length_app, length_fmap. cbn. lia.
Qed.

Lemma read_entire_file_terminator_out_of_bounds_witness :
  let E := demo_env 1 1 in
  ∃ b blk r s',
    read_entire_file E (SRC_PATH "fragment_shader.glsl") (initial E) =
      Ret r s' ∧
    data r = Ptr b ∧
    heap (crt s') !! b = Some blk ∧
    Z.of_nat (length blk) = size r ∧
    blk !! Z.to_nat (size r) = None ∧
    ub_log (crt s') =
      ub_log (crt (initial E)) ++ [OutOfBoundsStore b (size r) (size r)].
Proof.
  intros E.
  apply (read_entire_file_terminator_out_of_bounds E
           (SRC_PATH "fragment_shader.glsl") ["f"]%byte);
    [reflexivity | reflexivity | cbn; lia].
Defined.

(** C3.  For a path that names no file, [fopen] returns a null pointer and
    [read_entire_file], which does not test it, passes it to [ftell]: the
    run ends there in undefined behaviour, whatever the state, and no record
    is returned. *)
Theorem read_entire_file_missing_file E filename s :
  env_files E !! filename = None →
  fopen E filename "rb" s = Ret None s ∧
  read_entire_file E filename s = Crash (NullStream "ftell") s.
Proof.
  intros Hf. split.
  - by apply fopen_missing.
  - by apply read_entire_file_no_file.
Qed.

Lemma read_entire_file_missing_file_witness :
  let E := demo_env 1 1 in
  fopen E "../src/no_such_file.glsl" "rb" (initial E) =
    Ret None (initial E) ∧
  read_entire_file E "../src/no_such_file.glsl" (initial E) =
    Crash (NullStream "ftell") (initial E).
Proof.
  intros E.
  apply (read_entire_file_missing_file E "../src/no_such_file.glsl").
  reflexivity.
Defined.

(** * The program linker *)

(** C4.  What [main] asks of the program object after the link is
    [GL_COMPILE_STATUS], not the link status: no call of the run queries
    [GL_LINK_STATUS].  The query is an invalid enumerant for a program, so
    the GL raises [GL_INVALID_ENUM] and leaves [sp_success] unwritten, and
    the test that follows reads an indeterminate value. *)
Theorem link_check_queries_compile_status E vs fs fuel :
  loads E vs fs →
  env_glfwCreateWindow E = Some TheWindow →
  env_gladLoadGLLoader E ≠ 0 →
  let s := final (main E fuel (initial E)) in
  In (GlGetProgramiv shader_program GL_COMPILE_STATUS) (calls s) ∧
  existsb queries_link_status (calls s) = false ∧
  gl_errors (gl s) = [GL_INVALID_ENUM] ∧
  In (IndeterminateRead "sp_success") (ub_log (crt s)).
Proof.
  intros Hl Hw Hg s. unfold s. rewrite (main_enters_loop E vs fs fuel Hl Hw Hg).
  destruct (run_from_loop E fuel (Ptr 0) (Ptr 1) (loaded E vs fs))
    as (t & C & L & _ & Hc & K & _).
  fold (entry E vs fs) in C, Hc, K |- *.
  rewrite C, Hc. split; [|split; [|split]].
  - apply in_or_app. left. unfold setup_calls.
    apply in_or_app. right. apply in_or_app. right.
    apply in_or_app. left. by left.
  - rewrite existsb_app.
    rewrite (existsb_excluded _ queries_link_status t
               loop_calls_no_link_query L).
    rewrite orb_false_r. unfold setup_calls, shader_calls, link_check_calls.
    by destruct (vs_failed E), (fs_failed E), (sp_failed E).
  - destruct K as (_ & _ & _ & K). by apply (f_equal gl_errors) in K.
  - unfold entry, at_loop. cbn [crt ub_log].
    rewrite !in_app_iff. cbn [In]. auto 10.
Qed.

Lemma link_check_queries_compile_status_witness :
  let E := demo_env 1 0 in
  let s := final (main E 5 (initial E)) in
  In (GlGetProgramiv shader_program GL_COMPILE_STATUS) (calls s) ∧
  existsb queries_link_status (calls s) = false ∧
  gl_errors (gl s) = [GL_INVALID_ENUM] ∧
  In (IndeterminateRead "sp_success") (ub_log (crt s)).
Proof.
  intros E.
  apply (link_check_queries_compile_status E ["v"; "s"]%byte ["f"]%byte 5).
  - apply demo_loads.
  - reflexivity.
  - discriminate.
Defined.

(** C5.  Whenever the test after the link takes the failure branch, the
    message printed is the program's error line followed by the contents of
    [fs_infolog], the 512 bytes of the fragment shader's log array: the
    fragment log when that shader failed to compile, 512 unwritten bytes
    otherwise, whatever became of the vertex shader and of the link.  The
    program's own log has been retrieved by then, into [sp_infolog], and is
    not what is printed. *)
Theorem link_failure_prints_fs_infolog E vs fs fuel :
  loads E vs fs →
  env_glfwCreateWindow E = Some TheWindow →
  env_gladLoadGLLoader E ≠ 0 →
  sp_failed E = true →
  let s := final (main E fuel (initial E)) in
  last (stdout (crt s)) =
    Some (Printf "ERROR::SHADER::PROGRAM::COMPILATION_FAILED\n%s\n"
            [fs_infolog E]) ∧
  length (fs_infolog E) = 512%nat ∧
  fs_infolog E =
    (if fs_failed E
     then write_log 512 (snd (env_compile E fragment_shader))
            (char_array 512)
     else char_array 512) ∧
  In (GlGetProgramInfoLog shader_program 512) (calls s).
Proof.
  intros Hl Hw Hg Hsp s. unfold s.
  rewrite (main_enters_loop E vs fs fuel Hl Hw Hg).
  destruct (run_from_loop E fuel (Ptr 0) (Ptr 1) (loaded E vs fs))
    as (t & C & _ & _ & Hc & _).
  fold (entry E vs fs) in C, Hc |- *.
  rewrite C, Hc. split; [|split; [|split]].
  - cbn. unfold report. rewrite Hsp, !app_assoc. apply last_snoc.
  - apply fs_infolog_length.
  - reflexivity.
  - apply in_or_app. left. unfold setup_calls, link_check_calls.
    rewrite Hsp. apply in_or_app. right. apply in_or_app. right.
    apply in_or_app. left. cbn. auto.
Qed.

Lemma link_failure_prints_fs_infolog_witness :
  let E := demo_env 1 0 in
  let s := final (main E 5 (initial E)) in
  last (stdout (crt s)) =
    Some (Printf "ERROR::SHADER::PROGRAM::COMPILATION_FAILED\n%s\n"
            [fs_infolog E]) ∧
  length (fs_infolog E) = 512%nat ∧
  fs_infolog E =
    (if fs_failed E
     then write_log 512 (snd (env_compile E fragment_shader))
            (char_array 512)
     else char_array 512) ∧
  In (GlGetProgramInfoLog shader_program 512) (calls s).
Proof.
  intros E.
  apply (link_failure_prints_fs_infolog E ["v"; "s"]%byte ["f"]%byte 5).
  - apply demo_loads.
  - reflexivity.
  - discriminate.
  - reflexivity.
Defined.

(** In that run the fragment shader compiled and the link log reads "lnk":
    what is printed is the unwritten array, not the log retrieved. *)
Example link_failure_prints_unwritten_array :
  let E := demo_env 1 0 in
  fs_infolog E = char_array 512 ∧
  take 4 (sp_infolog E) = [Init "l"; Init "n"; Init "k"; Init x00]%byte.
Proof. split; reflexivity. Qed.

(** * Exit codes *)

(** C6.  With both shader files loaded: [main] returns -1 when
    [glfwCreateWindow] returns null, and when [gladLoadGLLoader] returns 0;
    otherwise every return of [main] is a return of 0 with the close flag of
    the window set, and such a return does happen once a close request is
    among the events.  No run of [main], in any environment, returns
    anything but -1 or 0. *)
Theorem main_exit_codes E vs fs :
  loads E vs fs →
  (env_glfwCreateWindow E = None →
     ∀ fuel, ∃ s', main E fuel (initial E) = Ret (-1) s') ∧
  (env_glfwCreateWindow E = Some TheWindow → env_gladLoadGLLoader E = 0 →
     ∀ fuel, ∃ s', main E fuel (initial E) = Ret (-1) s') ∧
  (env_glfwCreateWindow E = Some TheWindow → env_gladLoadGLLoader E ≠ 0 →
     (∀ fuel v s', main E fuel (initial E) = Ret v s' →
        v = 0 ∧ should_close (glfw s') = true) ∧
     (∀ n, existsb is_close_request (env_events E n) = true →
        ∃ s', main E (n + 2) (initial E) = Ret 0 s')) ∧
  (∀ E' fuel v s', main E' fuel (initial E') = Ret v s' → v = -1 ∨ v = 0).
Proof.
  intros Hl. destruct (reads_ok E vs fs Hl) as [R1 R2].
  split; [|split; [|split]].
  - intros Hw fuel. eexists.
    apply (main_no_window E fuel _ _ _ _ R1 R2 Hw).
  - intros Hw Hg fuel. eexists.
    apply (main_no_loader E fuel _ _ _ _ R1 R2 Hw). by rewrite Hg.
  - intros Hw Hg. split.
    + intros fuel v s' Hret.
      rewrite (main_enters_loop E vs fs fuel Hl Hw Hg) in Hret.
      destruct (run_from_loop E fuel (Ptr 0) (Ptr 1) (loaded E vs fs))
        as (t & _ & _ & _ & _ & _ & _ & _ & R & _).
      destruct (R v s' Hret) as (? & ? & _). done.
    + intros n Hn.
      rewrite (main_enters_loop E vs fs (n + 2) Hl Hw Hg).
      destruct (render_loop_returns E TheWindow shader_program RECT_VAO n
                  (entry E vs fs) Hn) as [sL HL].
      rewrite (bind_Ret _ _ _ _ _ HL). by eexists.
  - intros E' fuel v s' Hret.
    destruct (main_cases E' fuel)
      as [(why & c & H)|[(s & H & _)|(vs' & fs' & c & _ & _ & H)]];
      rewrite H in Hret.
    + discriminate.
    + injection Hret as <- _. by left.
    + destruct (run_from_loop E' fuel vs' fs' c)
        as (t & _ & _ & _ & _ & _ & _ & _ & R & _).
      destruct (R v s' Hret) as (? & _). by right.
Qed.

Lemma main_exit_codes_witness :
  let E := demo_env 1 1 in
  let s' := final (main E 5 (initial E)) in
  main E 5 (initial E) = Ret 0 s' ∧
  0 = 0 ∧ should_close (glfw s') = true.
Proof.
  intros E s'.
  assert (main E 5 (initial E) = Ret 0 s') as Hrun by (vm_compute; reflexivity).
  split; [exact Hrun|].
  destruct (main_exit_codes E ["v"; "s"]%byte ["f"]%byte (demo_loads 1 1))
    as (_ & _ & H & _).
  destruct (H eq_refl ltac:(discriminate)) as [H0 _].
  exact (H0 5%nat 0 s' Hrun).
Defined.

(** * The render loop *)

Lemma loop_calls_never_clear c :
  is_loop_call c = true → clears_flag c = false.
Proof. destruct c; try done. by destruct value. Qed.

(** C7.  In every run of the render loop, from any state and for any
    number of iterations: after a call that sets the close flag (the
    Escape branch of [process_input], or a poll that delivers a close
    request) the loop condition never again lets the body start, and the
    body is completed at most once more, namely the one that was running;
    no call clears the flag, and a flag that is set stays set.  When the
    loop exits, the flag is set and the test that found it is the last call
    of the loop; in [main] the next and last call is [glfwTerminate].
    And the loop does exit: a call that sets the flag leaves it set at the
    end of the run, and a run that ends with the flag set, if it has not
    returned, returns when given one more test of the condition, making no
    call in between but that test; [main] then calls [glfwTerminate] and
    returns 0. *)
Theorem render_loop_closes_promptly E fuel w p v s :
  let o := render_loop E fuel w p v s in
  ∃ t,
    calls (final o) = calls s ++ t ∧
    (∀ pre c post, t = pre ++ c :: post → raises_flag c = true →
       count_calls enters_body post = 0%nat ∧
       (count_calls ends_body post ≤ 1)%nat) ∧
    existsb clears_flag t = false ∧
    (should_close (glfw s) = true →
       count_calls enters_body t = 0%nat ∧
       should_close (glfw (final o)) = true) ∧
    (∀ s', o = Ret tt s' →
       should_close (glfw s') = true ∧
       last t = Some (GlfwWindowShouldClose w true)) ∧
    (∀ fuel' s', main E fuel' (initial E) = Ret 0 s' →
       should_close (glfw s') = true ∧
       ∃ pre, calls s' =
         pre ++ [GlfwWindowShouldClose TheWindow true; GlfwTerminate]) ∧
    (existsb raises_flag t = true →
       should_close (glfw (final o)) = true) ∧
    (should_close (glfw (final o)) = true →
       ∃ s', render_loop E (S fuel) w p v s = Ret tt s' ∧
             (calls s' = calls (final o) ∨
              calls s' = calls (final o) ++
                         [GlfwWindowShouldClose w true])) ∧
    (∀ fuel',
       should_close (glfw (final (main E fuel' (initial E)))) = true →
       ∃ s', main E (S fuel') (initial E) = Ret 0 s' ∧
             ∃ pre, calls s' =
               pre ++ [GlfwWindowShouldClose TheWindow true;
                       GlfwTerminate]).
Proof.
  intros o.
  destruct (render_loop_spec E fuel w p v s)
    as (t & C & L & P & M & R & _).
  exists t. split; [done|].
  split; [|split; [|split; [|split; [|split; [|split; [|split]]]]]].
  - intros pre c post -> Hc. by apply (prompt_split pre c post).
  - by apply (existsb_excluded is_loop_call clears_flag t
                loop_calls_never_clear).
  - intros Hs. destruct (M Hs) as [[-> | ->] ?]; by split.
  - intros s' Ho. by apply (R tt).
  - intros fuel' s' Hret.
    destruct (main_cases E fuel')
      as [(why & c & H)|[(s1 & H & _)|(vs' & fs' & c & _ & _ & H)]];
      rewrite H in Hret; [discriminate..|].
    destruct (run_from_loop E fuel' vs' fs' c)
      as (t' & C' & _ & _ & _ & _ & _ & _ & R' & _).
    destruct (R' 0 s' Hret) as (_ & ? & pre & ->). split; [done|].
    rewrite Hret in C'. cbn [final] in C'. rewrite C', app_assoc. by eexists.
  - by apply render_loop_raised.
  - apply render_loop_exits.
  - intros fuel'.
    destruct (main_cases_any_fuel E)
      as [(why & c & H)|[(s1 & Hs1 & H)|(vs' & fs' & c & H)]];
      rewrite !H; cbn [final]; [done|congruence|].
    intros Hflag.
    destruct (render_loop_exits E fuel' TheWindow shader_program RECT_VAO
                (at_loop E vs' fs' c)) as (s' & Hret & _).
    { revert Hflag. unfold bind.
      by destruct (render_loop E fuel' TheWindow shader_program RECT_VAO
                     (at_loop E vs' fs' c)) as [[] ?|? ?|?]. }
    destruct (run_from_loop E (S fuel') vs' fs' c)
      as (t' & C' & _ & _ & _ & _ & _ & _ & R' & _).
    revert C' R'. rewrite (bind_Ret _ _ _ _ _ Hret).
    change ((glfwTerminate ;; ret 0) s')
      with (Ret 0 (record_call GlfwTerminate s')).
    cbn [final]. intros C' R'.
    eexists. split; [reflexivity|].
    destruct (R' 0 _ eq_refl) as (_ & _ & pre & ->).
    rewrite C', app_assoc. by eexists.
Qed.

Lemma render_loop_closes_promptly_witness :
  let E := demo_env 1 1 in
  let s := entry E ["v"; "s"]%byte ["f"]%byte in
  let t := drop (length (calls s))
             (calls (final (render_loop E 4 TheWindow shader_program
                              RECT_VAO s))) in
  t !! 33%nat = Some (GlfwSetWindowShouldClose TheWindow true) ∧
  (count_calls enters_body (drop 34 t) = 0%nat ∧
   (count_calls ends_body (drop 34 t) ≤ 1)%nat) ∧
  (∃ s', render_loop E 4 TheWindow shader_program RECT_VAO s =
         OutOfFuel s') ∧
  (∃ s', render_loop E 5 TheWindow shader_program RECT_VAO s = Ret tt s' ∧
         calls s' = calls s ++ t ++ [GlfwWindowShouldClose TheWindow true]) ∧
  ∃ s', main E 5 (initial E) = Ret 0 s' ∧
        should_close (glfw s') = true ∧
        ∃ pre, calls s' =
          pre ++ [GlfwWindowShouldClose TheWindow true; GlfwTerminate].
Proof.
  intros E s t.
  destruct (render_loop_closes_promptly E 4 TheWindow shader_program
              RECT_VAO s)
    as (t' & C & P & _ & _ & _ & H & Hr & Hx & Hm).
  assert (t' = t) as ->.
  { unfold t. rewrite C. by rewrite drop_app_length. }
  assert (existsb raises_flag t = true) as Hraised by reflexivity.
  split; [reflexivity|]. split; [|split; [|split]].
  - apply (P (take 33 t) (GlfwSetWindowShouldClose TheWindow true));
      reflexivity.
  - eexists. vm_compute. reflexivity.
  - destruct (Hx (Hr Hraised)) as (s' & Hret & [Hc | Hc]).
    + exfalso. revert Hc. rewrite C. vm_compute in Hret.
      injection Hret as <-. vm_compute. discriminate.
    + exists s'. split; [exact Hret|]. by rewrite Hc, C, app_assoc.
  - destruct (Hm 4%nat) as (s' & Hret & Hpre); [reflexivity|].
    exists s'. split; [exact Hret|]. split; [|exact Hpre].
    by apply (H 5%nat s').
Defined.

(** * The resize callback *)

(** What either size callback does when it is called. *)
Lemma window_size_callback_writes_globals w width height s :
  ∃ s', window_size_callback w width height s = Ret tt s' ∧
        window_width s' = width ∧ window_height s' = height ∧
        calls s' = calls s ++ [GlViewport 0 0 width height].
Proof. by eexists. Qed.

Lemma framebuffer_size_callback_keeps_globals w width height s :
  ∃ s', framebuffer_size_callback w width height s = Ret tt s' ∧
        window_width s' = window_width s ∧
        window_height s' = window_height s ∧
        calls s' = calls s ++ [GlViewport 0 0 width height].
Proof. by eexists. Qed.

(** C8, what the code does.  The callback [main] registers is
    [framebuffer_size_callback], which sets the viewport and writes no
    global; [window_size_callback], which writes them, is registered
    nowhere.  So in every run, whatever resize events are delivered,
    [window_width] and [window_height] end as they were initialised. *)
Theorem resize_leaves_globals_unchanged E fuel :
  let s := final (main E fuel (initial E)) in
  window_width s = 1280 ∧ window_height s = 720.
Proof.
  intros s. unfold s.
  destruct (main_cases E fuel)
    as [(why & c & H)|[(s1 & H & ? & ? & _)|(vs' & fs' & c & _ & _ & H)]];
    rewrite H; [done..|].
  destruct (run_from_loop E fuel vs' fs' c)
    as (t' & _ & _ & _ & _ & _ & ? & ? & _). done.
Qed.

(** A resize to 800x600 is delivered by the second poll of this run: the
    viewport follows, the globals do not. *)
Example resize_to_800_600 :
  let E := demo_env 1 1 in
  let s := final (main E 5 (initial E)) in
  env_events E 1 = [FramebufferResized 800 600; WindowResized 800 600] ∧
  In (GlfwPollEvents [FramebufferResized 800 600; WindowResized 800 600])
    (calls s) ∧
  In (GlViewport 0 0 800 600) (calls s) ∧
  framebuffer_size_cb (glfw s) = Some fn_framebuffer_size_callback ∧
  window_size_cb (glfw s) = None ∧
  (window_width s, window_height s) = (1280, 720).
Proof. vm_compute. intuition. Qed.

(** * Geometry *)

(** C9 as stated fails: the run below leaves two vertex arrays, not one. *)
Lemma geometry_not_one_rectangle :
  ¬ one_rectangle (gl (final (main (demo_env 1 1) 5
                                (initial (demo_env 1 1))))).
Proof.
  intros (vao & vbo & ebo & v & i & Hvaos & _).
  apply (f_equal (fun m => stdpp.base.size m)) in Hvaos.
  rewrite map_size_singleton in Hvaos.
  vm_compute in Hvaos. discriminate.
Qed.

Lemma loop_calls_no_upload c :
  is_loop_call c || is_terminate c = true →
  is_buffer_data c = false ∧ is_gen c = false.
Proof. destruct c; cbn; try done; discriminate. Qed.

(** C9, amended.  [main] creates two pieces of static geometry before the
    loop: a triangle, in [VAO] and [VBO] (3 vertices of 3 floats, no
    indices), and a rectangle, in [RECT_VAO], [RECT_VBO] and [EBO] (4
    vertices of 3 floats and 6 indices, 2 triangles).  Each of the three
    buffers is filled by one [glBufferData], each of the five names comes
    from one call, all before the loop; and after any number of iterations
    the buffers and the vertex arrays are what they were at its start. *)
Theorem geometry_is_static E vs fs fuel :
  loads E vs fs →
  env_glfwCreateWindow E = Some TheWindow →
  env_gladLoadGLLoader E ≠ 0 →
  let s := final (main E fuel (initial E)) in
  gl_vaos (gl s) =
    <[RECT_VAO := position_vao RECT_VBO EBO]>
      (<[VAO := position_vao VBO 0]> ∅) ∧
  gl_buffers (gl s) =
    <[EBO := static_buffer indices]>
      (<[RECT_VBO := static_buffer rect_vertices]>
         (<[VBO := static_buffer vertices]> ∅)) ∧
  count vertices = 3 * 3 ∧
  count rect_vertices = 4 * 3 ∧
  count indices = 2 * 3 ∧
  count_calls is_buffer_data (calls s) = 3%nat ∧
  count_calls is_gen (calls s) = 5%nat ∧
  count_calls is_buffer_data (calls (entry E vs fs)) = 3%nat ∧
  count_calls is_gen (calls (entry E vs fs)) = 5%nat.
Proof.
  intros Hl Hw Hg s. unfold s.
  rewrite (main_enters_loop E vs fs fuel Hl Hw Hg).
  destruct (run_from_loop E fuel (Ptr 0) (Ptr 1) (loaded E vs fs))
    as (t & C & L & _ & _ & K & _).
  fold (entry E vs fs) in C, K |- *.
  assert (count_calls is_buffer_data (calls (entry E vs fs)) = 3%nat ∧
          count_calls is_gen (calls (entry E vs fs)) = 5%nat) as [Hb Hn].
  { cbn [entry at_loop calls].
    unfold setup_calls, shader_calls, link_check_calls.
    by destruct (vs_failed E), (fs_failed E), (sp_failed E). }
  rewrite (kept_vaos _ _ K), (kept_buffers _ _ K), C, !count_calls_app.
  rewrite (count_excluded _ is_buffer_data t
             (fun c H => proj1 (loop_calls_no_upload c H)) L).
  rewrite (count_excluded _ is_gen t
             (fun c H => proj2 (loop_calls_no_upload c H)) L).
  cbn [entry at_loop calls] in Hb, Hn. rewrite Hb, Hn.
  repeat split; first [reflexivity | exact Hb | exact Hn].
Qed.

Lemma geometry_is_static_witness :
  let E := demo_env 1 1 in
  let s := final (main E 5 (initial E)) in
  gl_vaos (gl s) =
    <[RECT_VAO := position_vao RECT_VBO EBO]>
      (<[VAO := position_vao VBO 0]> ∅) ∧
  gl_buffers (gl s) =
    <[EBO := static_buffer indices]>
      (<[RECT_VBO := static_buffer rect_vertices]>
         (<[VBO := static_buffer vertices]> ∅)) ∧
  count vertices = 3 * 3 ∧
  count rect_vertices = 4 * 3 ∧
  count indices = 2 * 3 ∧
  count_calls is_buffer_data (calls s) = 3%nat ∧
  count_calls is_gen (calls s) = 5%nat ∧
  count_calls is_buffer_data
    (calls (entry E ["v"; "s"]%byte ["f"]%byte)) = 3%nat ∧
  count_calls is_gen (calls (entry E ["v"; "s"]%byte ["f"]%byte)) = 5%nat.
Proof.
  intros E.
  apply (geometry_is_static E ["v"; "s"]%byte ["f"]%byte 5).
  - apply demo_loads.
  - reflexivity.
  - discriminate.
Defined.

(** * Start-up *)

(** C10.  [main] never looks at what [glfwInit] returns: a run is the same
    whatever that value is.  After [glfwInit] the next calls are the two
    window hints and [glfwCreateWindow], in every run that has loaded its
    files; and with [glfwInit] returning [GLFW_FALSE] (0) while window and
    loader are fine, [main] goes on into the loop and can only return 0,
    not -1. *)
Theorem glfwInit_result_ignored E vs fs :
  loads E vs fs →
  (∀ r fuel,
     main (with_glfwInit r E) fuel (initial (with_glfwInit r E)) =
     main E fuel (initial E)) ∧
  (∀ fuel, ∃ rest,
     calls (final (main E fuel (initial E))) =
     [GlfwInit;
      GlfwWindowHint GLFW_CONTEXT_VERSION_MAJOR 3;
      GlfwWindowHint GLFW_CONTEXT_VERSION_MINOR 3;
      GlfwCreateWindow 1280 720 "OpenGL experiment"] ++ rest) ∧
  (env_glfwInit E = 0 →
   env_glfwCreateWindow E = Some TheWindow →
   env_gladLoadGLLoader E ≠ 0 →
   ∀ fuel v s', main E fuel (initial E) = Ret v s' → v = 0).
Proof.
  intros Hl. destruct (reads_ok E vs fs Hl) as [R1 R2].
  split; [|split].
  - intros r fuel. apply glfwInit_unused.
  - intros fuel.
    destruct (env_glfwCreateWindow E) as [[]|] eqn:Hw.
    + destruct (env_gladLoadGLLoader E =? 0) eqn:Hg.
      * rewrite (main_no_loader E fuel _ _ _ _ R1 R2 Hw Hg). by eexists.
      * apply Z.eqb_neq in Hg.
        rewrite (main_enters_loop E vs fs fuel Hl Hw Hg).
        destruct (run_from_loop E fuel (Ptr 0) (Ptr 1) (loaded E vs fs))
          as (t & C & _).
        fold (entry E vs fs) in C. rewrite C.
        unfold setup_calls. rewrite <- app_assoc. by eexists.
    + rewrite (main_no_window E fuel _ _ _ _ R1 R2 Hw). by eexists.
  - intros _ Hw Hg fuel v s' Hret.
    rewrite (main_enters_loop E vs fs fuel Hl Hw Hg) in Hret.
    destruct (run_from_loop E fuel (Ptr 0) (Ptr 1) (loaded E vs fs))
      as (t & _ & _ & _ & _ & _ & _ & _ & R & _).
    by destruct (R v s' Hret).
Qed.

Lemma glfwInit_result_ignored_witness :
  let E := with_glfwInit 0 (demo_env 1 1) in
  let s' := final (main E 5 (initial E)) in
  env_glfwInit E = 0 ∧
  main E 5 (initial E) = Ret 0 s' ∧
  0 = 0.
Proof.
  intros E s'.
  assert (main E 5 (initial E) = Ret 0 s') as Hrun
    by (vm_compute; reflexivity).
  split; [reflexivity|]. split; [exact Hrun|].
  assert (loads E ["v"; "s"]%byte ["f"]%byte) as Hl
    by (repeat split; cbn; lia).
  destruct (glfwInit_result_ignored E _ _ Hl) as (_ & _ & H).
  apply (H eq_refl eq_refl ltac:(discriminate) 5%nat 0 s' Hrun).
Defined.

(** * Further properties of [main.c] *)

(** ** The file loader *)



(** The same for an empty file: the fault is at the store, the file
    closed. *)
Example read_entire_file_malloc_fails_empty :
  let E := {| env_files := {[ "empty" := [] ]};
              env_heap := 0;
              env_garbage := fun _ => 0;
              env_glfwInit := 1;
              env_glfwCreateWindow := Some TheWindow;
              env_gladLoadGLLoader := 1;
              env_compile := fun _ => (1, []);
              env_link := fun _ => (1, []);
              env_events := fun _ => [] |} in
  read_entire_file E "empty" (initial E) =
  Crash (NullPointer "read_entire_file")
    (upd_crt (fun c => set_streams
       (streams c ++ [{| s_content := []; s_pos := 0; s_open := false |}])
       c) (initial E)).
Proof. vm_compute. reflexivity. Qed.

(** X2.  Whatever the files and the allocator, a call of
    [read_entire_file] returns or ends in a fault; either way it has made
    no GLFW or GL call and has left the globals and the state of GLFW and
    of the GL as they were. *)
Theorem read_entire_file_touches_crt_only E filename s :
  let o := read_entire_file E filename s in
  (∀ s', o ≠ OutOfFuel s') ∧
  calls (final o) = calls s ∧
  gl (final o) = gl s ∧
  glfw (final o) = glfw s ∧
  window_width (final o) = window_width s ∧
  window_height (final o) = window_height s.
Proof.
  intros o. unfold o.
  pose proof (crt_only_read_entire_file E filename s) as F.
  destruct (read_entire_file E filename s) as [r s'|why s'|s'];
    [| |done]; destruct F as [c ->]; by repeat split.
Qed.

(** X3.  [read_entire_file] closes the file it has opened, having read it
    to its end, and leaves the other streams as they were; the allocator
    has one byte more than the length of the file less than before. *)
Theorem read_entire_file_closes_the_file E filename content s :
  env_files E !! filename = Some content →
  Z.of_nat (length content) < LONG_MAX →
  Z.of_nat (length content) + 1 ≤ heap_avail (crt s) →
  ∃ r s',
    read_entire_file E filename s = Ret r s' ∧
    streams (crt s') =
      streams (crt s) ++
      [{| s_content := content;
          s_pos := Z.of_nat (length content);
          s_open := false |}] ∧
    heap_avail (crt s') =
      heap_avail (crt s) - (Z.of_nat (length content) + 1).
Proof.
  intros Hf Hlen Hroom.
  eexists _, _.
  rewrite (read_entire_file_ok E filename content s Hf Hlen Hroom).
  by destruct s as [[hp av ss ul out] w h gf g cs].
Qed.

Lemma read_entire_file_closes_the_file_witness :
  let E := demo_env 1 1 in
  ∃ r s',
    read_entire_file E (SRC_PATH "vertex_shader.glsl") (initial E) =
      Ret r s' ∧
    streams (crt s') =
      streams (crt (initial E)) ++
      [{| s_content := ["v"; "s"]%byte; s_pos := 2; s_open := false |}] ∧
    heap_avail (crt s') = heap_avail (crt (initial E)) - (2 + 1).
Proof.
  intros E.
  apply (read_entire_file_closes_the_file E
           (SRC_PATH "vertex_shader.glsl") ["v"; "s"]%byte (initial E)).
  - reflexivity.
  - reflexivity.
  - cbn. lia.
Defined.

(** ** What [main] hands to the GL and prints *)

(** A call that [main] makes before the loop, in every run that gets
    there. *)
Ltac in_setup :=
  apply in_or_app; left;
  unfold setup_calls, shader_calls, link_check_calls, geometry_calls;
  rewrite ?in_app_iff; cbn [In]; auto 40.

(** X4.  In a run that gets to the shaders, the source pointers passed to
    [glShaderSource] (with a null length array, so the GL reads up to a
    terminator) are the two buffers of [read_entire_file]; each holds the
    bytes of its file followed by one byte that was never written.  The
    heap never changes after the two reads, and a buffer holds a written
    zero byte only where the file has one: the program itself has
    terminated neither string. *)
Theorem shader_sources_unterminated E vs fs fuel :
  loads E vs fs →
  env_glfwCreateWindow E = Some TheWindow →
  env_gladLoadGLLoader E ≠ 0 →
  let s := final (main E fuel (initial E)) in
  In (GlShaderSource vertex_shader 1 (Ptr 0)) (calls s) ∧
  In (GlShaderSource fragment_shader 1 (Ptr 1)) (calls s) ∧
  heap (crt s) = [(Init <$> vs) ++ [Undef]; (Init <$> fs) ++ [Undef]] ∧
  (∀ b blk, heap (crt s) !! b = Some blk →
     last blk = Some Undef ∧
     (Init x00 ∈ blk → x00 ∈ vs ∨ x00 ∈ fs)).
Proof.
  intros Hl Hw Hg s. unfold s.
  rewrite (main_enters_loop E vs fs fuel Hl Hw Hg).
  destruct (run_from_loop E fuel (Ptr 0) (Ptr 1) (loaded E vs fs))
    as (t & C & _ & _ & Hc & _).
  fold (entry E vs fs) in C, Hc |- *.
  rewrite C, Hc. split; [|split; [|split]].
  - in_setup.
  - in_setup.
  - reflexivity.
  - intros b blk Hb. cbn in Hb.
    assert (∀ l : list byte,
              last ((Init <$> l) ++ [Undef]) = Some Undef ∧
              (Init x00 ∈ (Init <$> l) ++ [Undef] → x00 ∈ l)) as Hblk.
    { intros l. split; [apply last_snoc|].
      intros [Hin | Hin]%elem_of_app.
      - apply list_elem_of_fmap in Hin as (y & [= <-] & Hy). done.
      - apply list_elem_of_singleton in Hin. discriminate. }
    destruct b as [|[|b]]; cbn in Hb; [| |done]; injection Hb as <-;
      destruct (Hblk vs), (Hblk fs); split; auto.
Qed.

Lemma shader_sources_unterminated_witness :
  let E := demo_env 1 1 in
  let s := final (main E 5 (initial E)) in
  In (GlShaderSource vertex_shader 1 (Ptr 0)) (calls s) ∧
  In (GlShaderSource fragment_shader 1 (Ptr 1)) (calls s) ∧
  heap (crt s) =
    [(Init <$> ["v"; "s"]%byte) ++ [Undef];
     (Init <$> ["f"]%byte) ++ [Undef]] ∧
  (∀ b blk, heap (crt s) !! b = Some blk →
     last blk = Some Undef ∧
     (Init x00 ∈ blk → x00 ∈ ["v"; "s"]%byte ∨ x00 ∈ ["f"]%byte)).
Proof.
  intros E.
  apply (shader_sources_unterminated E ["v"; "s"]%byte ["f"]%byte 5).
  - apply demo_loads.
  - reflexivity.
  - discriminate.
Defined.

(** What [read_entire_file] leaves in its buffer is a string only if the
    file holds a zero byte. *)
Lemma terminated_buffer (l : list byte) :
  terminated ((Init <$> l) ++ [Undef]) = has_zero l.
Proof.
  induction l as [|b l IH]; [done|].
  cbn [fmap list_fmap app terminated has_zero existsb]. by rewrite IH.
Qed.

(** X5.  The undefined behaviour of a run that enters the loop, in the
    order in which it happens: the terminator store behind the vertex
    buffer and the one behind the fragment buffer; for each of the two
    shader files that holds no zero byte, [glShaderSource] reading a source
    in which no terminator was written; the read of [sp_success], which
    was never written; and, when that read finds 0 and the fragment shader
    has compiled, [printf] reading [fs_infolog], which was never written.
    [vs_success] and [fs_success] are written before they are tested, the
    messages about a shader print a string, and the loop adds nothing. *)
Theorem undefined_behaviour_of_a_run E vs fs fuel :
  loads E vs fs →
  env_glfwCreateWindow E = Some TheWindow →
  env_gladLoadGLLoader E ≠ 0 →
  ub_log (crt (final (main E fuel (initial E)))) =
  [OutOfBoundsStore 0 (Z.of_nat (length vs) + 1) (Z.of_nat (length vs) + 1);
   OutOfBoundsStore 1 (Z.of_nat (length fs) + 1) (Z.of_nat (length fs) + 1)]
  ++ (if has_zero vs then [] else [UnterminatedString "glShaderSource"])
  ++ (if has_zero fs then [] else [UnterminatedString "glShaderSource"])
  ++ [IndeterminateRead "sp_success"]
  ++ (if sp_failed E && negb (fs_failed E)
      then [UnterminatedString "printf"] else []).
Proof.
  intros Hl Hw Hg.
  rewrite (main_enters_loop E vs fs fuel Hl Hw Hg).
  destruct (run_from_loop E fuel (Ptr 0) (Ptr 1) (loaded E vs fs))
    as (t & _ & _ & _ & Hc & _).
  fold (entry E vs fs) in Hc |- *. rewrite Hc.
  unfold entry, at_loop, source_read, string_at, loaded, after_read.
  cbn [crt ub_log heap initial app length lookup list_lookup].
  by rewrite !terminated_buffer.
Qed.

Lemma undefined_behaviour_of_a_run_witness :
  let E := demo_env 1 0 in
  ub_log (crt (final (main E 5 (initial E)))) =
  [OutOfBoundsStore 0 3 3; OutOfBoundsStore 1 2 2;
   UnterminatedString "glShaderSource";
   UnterminatedString "glShaderSource";
   IndeterminateRead "sp_success";
   UnterminatedString "printf"].
Proof.
  intros E.
  apply (undefined_behaviour_of_a_run E ["v"; "s"]%byte ["f"]%byte 5).
  - apply demo_loads.
  - reflexivity.
  - discriminate.
Defined.

(** X6.  When [glfwCreateWindow] returns null, [main] prints the one line
    "Failed to create GLFW window", calls [glfwTerminate] and returns -1;
    it has made no GL call and registered no callback. *)
Theorem main_without_window E vs fs fuel :
  loads E vs fs →
  env_glfwCreateWindow E = None →
  ∃ s',
    main E fuel (initial E) = Ret (-1) s' ∧
    stdout (crt s') = [Printf "Failed to create GLFW window\n" []] ∧
    calls s' =
      [GlfwInit;
       GlfwWindowHint GLFW_CONTEXT_VERSION_MAJOR 3;
       GlfwWindowHint GLFW_CONTEXT_VERSION_MINOR 3;
       GlfwCreateWindow 1280 720 "OpenGL experiment";
       GlfwTerminate] ∧
    framebuffer_size_cb (glfw s') = None ∧
    gl s' = gl (initial E).
Proof.
  intros Hl Hw. destruct (reads_ok E vs fs Hl) as [R1 R2].
  eexists. rewrite (main_no_window E fuel _ _ _ _ R1 R2 Hw).
  by repeat split.
Qed.

Lemma main_without_window_witness :
  let E := {| env_files := env_files (demo_env 1 1);
              env_heap := 4096;
              env_garbage := fun _ => 1;
              env_glfwInit := 1;
              env_glfwCreateWindow := None;
              env_gladLoadGLLoader := 1;
              env_compile := fun _ => (1, []);
              env_link := fun _ => (1, []);
              env_events := fun _ => [] |} in
  ∃ s',
    main E 5 (initial E) = Ret (-1) s' ∧
    stdout (crt s') = [Printf "Failed to create GLFW window\n" []] ∧
    calls s' =
      [GlfwInit;
       GlfwWindowHint GLFW_CONTEXT_VERSION_MAJOR 3;
       GlfwWindowHint GLFW_CONTEXT_VERSION_MINOR 3;
       GlfwCreateWindow 1280 720 "OpenGL experiment";
       GlfwTerminate] ∧
    framebuffer_size_cb (glfw s') = None ∧
    gl s' = gl (initial E).
Proof.
  intros E.
  apply (main_without_window E ["v"; "s"]%byte ["f"]%byte 5).
  - repeat split; cbn; lia.
  - reflexivity.
Defined.

(** X7.  When the window is created and [gladLoadGLLoader] returns 0,
    [main] prints the one line "Failed to initialize GLAD" and returns -1
    straight away: unlike the path for a missing window, this one does not
    call [glfwTerminate].  No GL call has been made. *)
Theorem main_without_loader E vs fs fuel :
  loads E vs fs →
  env_glfwCreateWindow E = Some TheWindow →
  env_gladLoadGLLoader E = 0 →
  ∃ s',
    main E fuel (initial E) = Ret (-1) s' ∧
    stdout (crt s') = [Printf "Failed to initialize GLAD\n" []] ∧
    calls s' =
      [GlfwInit;
       GlfwWindowHint GLFW_CONTEXT_VERSION_MAJOR 3;
       GlfwWindowHint GLFW_CONTEXT_VERSION_MINOR 3;
       GlfwCreateWindow 1280 720 "OpenGL experiment";
       GlfwMakeContextCurrent TheWindow;
       GlfwSetFramebufferSizeCallback TheWindow
         fn_framebuffer_size_callback;
       GladLoadGLLoader] ∧
    count_calls is_terminate (calls s') = 0%nat ∧
    gl s' = gl (initial E).
Proof.
  intros Hl Hw Hg. destruct (reads_ok E vs fs Hl) as [R1 R2].
  eexists. rewrite (main_no_loader E fuel _ _ _ _ R1 R2 Hw);
    [|by rewrite Hg].
  by repeat split.
Qed.

Lemma main_without_loader_witness :
  let E := {| env_files := env_files (demo_env 1 1);
              env_heap := 4096;
              env_garbage := fun _ => 1;
              env_glfwInit := 1;
              env_glfwCreateWindow := Some TheWindow;
              env_gladLoadGLLoader := 0;
              env_compile := fun _ => (1, []);
              env_link := fun _ => (1, []);
              env_events := fun _ => [] |} in
  ∃ s',
    main E 5 (initial E) = Ret (-1) s' ∧
    stdout (crt s') = [Printf "Failed to initialize GLAD\n" []] ∧
    calls s' =
      [GlfwInit;
       GlfwWindowHint GLFW_CONTEXT_VERSION_MAJOR 3;
       GlfwWindowHint GLFW_CONTEXT_VERSION_MINOR 3;
       GlfwCreateWindow 1280 720 "OpenGL experiment";
       GlfwMakeContextCurrent TheWindow;
       GlfwSetFramebufferSizeCallback TheWindow
         fn_framebuffer_size_callback;
       GladLoadGLLoader] ∧
    count_calls is_terminate (calls s') = 0%nat ∧
    gl s' = gl (initial E).
Proof.
  intros E.
  apply (main_without_loader E ["v"; "s"]%byte ["f"]%byte 5).
  - repeat split; cbn; lia.
  - reflexivity.
  - reflexivity.
Defined.

(** X8.  A shader that fails to compile does not stop [main].  Whatever
    the three status tests find, the run compiles both shaders, links,
    uploads the geometry and enters the loop, and it can only return 0.
    What it prints is one message per failing test, in the order vertex,
    fragment, program, and nothing else: nothing at all when no test
    fails. *)
Theorem compile_failure_is_not_fatal E vs fs fuel :
  loads E vs fs →
  env_glfwCreateWindow E = Some TheWindow →
  env_gladLoadGLLoader E ≠ 0 →
  let s := final (main E fuel (initial E)) in
  stdout (crt s) =
    (if vs_failed E
     then [Printf "ERROR::SHADER::VERTEX::COMPILATION_FAILED\n%s\n"
             [vs_infolog E]]
     else []) ++
    (if fs_failed E
     then [Printf "ERROR::SHADER::FRAGMENT::COMPILATION_FAILED\n%s\n"
             [fs_infolog E]]
     else []) ++
    (if sp_failed E
     then [Printf "ERROR::SHADER::PROGRAM::COMPILATION_FAILED\n%s\n"
             [fs_infolog E]]
     else []) ∧
  (∃ t, calls s = setup_calls E (Ptr 0) (Ptr 1) ++ t) ∧
  In (GlCompileShader fragment_shader) (calls s) ∧
  In (GlLinkProgram shader_program) (calls s) ∧
  In (GlBufferData GL_ELEMENT_ARRAY_BUFFER 24 indices GL_STATIC_DRAW)
    (calls s) ∧
  (∀ v s', main E fuel (initial E) = Ret v s' → v = 0).
Proof.
  intros Hl Hw Hg s. unfold s.
  rewrite (main_enters_loop E vs fs fuel Hl Hw Hg).
  destruct (run_from_loop E fuel (Ptr 0) (Ptr 1) (loaded E vs fs))
    as (t & C & _ & _ & Hc & _ & _ & _ & R & _).
  fold (entry E vs fs) in C, Hc, R |- *.
  rewrite C, Hc.
  split; [reflexivity|]. split; [by eexists|].
  split; [|split; [|split]].
  - in_setup.
  - in_setup.
  - in_setup.
  - intros v s' Hret. by destruct (R v s' Hret).
Qed.

Lemma compile_failure_is_not_fatal_witness :
  let E := demo_env 0 1 in
  let s := final (main E 5 (initial E)) in
  stdout (crt s) =
    [Printf "ERROR::SHADER::FRAGMENT::COMPILATION_FAILED\n%s\n"
       [fs_infolog E]] ∧
  main E 5 (initial E) = Ret 0 s.
Proof.
  intros E s.
  destruct (compile_failure_is_not_fatal E ["v"; "s"]%byte ["f"]%byte 5)
    as (Hout & _ & _ & _ & _ & _).
  - apply demo_loads.
  - reflexivity.
  - discriminate.
  - split; [exact Hout|]. vm_compute. reflexivity.
Defined.

(** What [glGetShaderInfoLog] leaves in an array of 512 when it is told
    that the array has 512 bytes. *)
Lemma write_log_holds_log log :
  holds_log log (write_log 512 log (char_array 512)).
Proof.
  unfold holds_log. split; [apply write_log_length, length_replicate|].
  unfold write_log. cbn [Z.leb Z.compare].
  change (Z.to_nat (512 - 1)) with 511%nat.
  assert (take 511 log = take (Nat.min 511 (length log)) log) as ->.
  { by rewrite <- take_take, firstn_all. }
  assert (length (Init <$> take (Nat.min 511 (length log)) log) =
          Nat.min 511 (length log)) as Hn.
  { rewrite length_fmap, length_take. lia. }
  split.
  - rewrite lookup_app_r by lia. by rewrite Hn, Nat.sub_diag.
  - by rewrite take_app_length'.
Qed.

(** X9.  The message about a shader that has failed to compile prints an
    array that holds a string: [main] passes the size of the array, 512,
    to [glGetShaderInfoLog], which writes at most 511 bytes of the log of
    that shader and a terminator.  This is so for the vertex and for the
    fragment shader. *)
Theorem compile_message_prints_a_string E vs fs fuel :
  loads E vs fs →
  env_glfwCreateWindow E = Some TheWindow →
  env_gladLoadGLLoader E ≠ 0 →
  let s := final (main E fuel (initial E)) in
  (vs_failed E = true →
     In (Printf "ERROR::SHADER::VERTEX::COMPILATION_FAILED\n%s\n"
           [vs_infolog E]) (stdout (crt s)) ∧
     In (GlGetShaderInfoLog vertex_shader 512) (calls s) ∧
     holds_log (snd (env_compile E vertex_shader)) (vs_infolog E)) ∧
  (fs_failed E = true →
     In (Printf "ERROR::SHADER::FRAGMENT::COMPILATION_FAILED\n%s\n"
           [fs_infolog E]) (stdout (crt s)) ∧
     In (GlGetShaderInfoLog fragment_shader 512) (calls s) ∧
     holds_log (snd (env_compile E fragment_shader)) (fs_infolog E)).
Proof.
  intros Hl Hw Hg s. unfold s.
  rewrite (main_enters_loop E vs fs fuel Hl Hw Hg).
  destruct (run_from_loop E fuel (Ptr 0) (Ptr 1) (loaded E vs fs))
    as (t & C & _ & _ & Hc & _).
  fold (entry E vs fs) in C, Hc |- *.
  rewrite C, Hc.
  change (stdout (crt (entry E vs fs))) with ([] ++ report E).
  split; intros Hfail.
  - split; [|split].
    + unfold report. rewrite Hfail, !in_app_iff. cbn [In]. auto.
    + apply in_or_app. left.
      unfold setup_calls, shader_calls. rewrite Hfail, !in_app_iff.
      cbn [In]. auto 20.
    + unfold vs_infolog. rewrite Hfail. apply write_log_holds_log.
  - split; [|split].
    + unfold report. rewrite Hfail, !in_app_iff. cbn [In]. auto.
    + apply in_or_app. left.
      unfold setup_calls, shader_calls. rewrite Hfail, !in_app_iff.
      cbn [In]. auto 20.
    + unfold fs_infolog. rewrite Hfail. apply write_log_holds_log.
Qed.

Lemma compile_message_prints_a_string_witness :
  let E := demo_env 0 1 in
  let s := final (main E 5 (initial E)) in
  In (Printf "ERROR::SHADER::FRAGMENT::COMPILATION_FAILED\n%s\n"
        [fs_infolog E]) (stdout (crt s)) ∧
  In (GlGetShaderInfoLog fragment_shader 512) (calls s) ∧
  holds_log ["b"; "a"; "d"]%byte (fs_infolog E).
Proof.
  intros E.
  apply (compile_message_prints_a_string E ["v"; "s"]%byte ["f"]%byte 5).
  - apply demo_loads.
  - reflexivity.
  - discriminate.
  - reflexivity.
Defined.

(** ** The render loop, event by event *)

Lemma escape_after_cons ev evs k :
  escape_after (ev :: evs) k = escape_after evs (escape_after [ev] k).
Proof. reflexivity. Qed.

Lemma viewports_of_cons ev evs :
  viewports_of (ev :: evs) = viewports_of [ev] ++ viewports_of evs.
Proof. unfold viewports_of. cbn. by rewrite app_nil_r. Qed.

(** Once the events end with Escape held down, it does not matter how the
    key was before. *)
Lemma escape_after_pressed evs : ∀ k,
  escape_after evs GLFW_RELEASE = GLFW_PRESS →
  escape_after evs k = GLFW_PRESS.
Proof.
  induction evs as [|ev evs IH]; intros k; [done|].
  rewrite !(escape_after_cons ev evs). intros H.
  destruct ev as [|[|o] a| |]; try (by destruct a); by apply IH.
Qed.

Lemma wired_kept s s' : kept s s' → wired s → wired s'.
Proof. intros (_ & ? & ? & _) [? ?]. split; congruence. Qed.

(** One event: where it leaves the Escape key, and what is called when the
    callbacks are those [main] registers. *)
Lemma handle_event_more ev s :
  ∃ s',
    handle_event ev s = Ret tt s' ∧
    escape_key (glfw s') = escape_after [ev] (escape_key (glfw s)) ∧
    (wired s → calls s' = calls s ++ viewports_of [ev]).
Proof.
  destruct s as [c ww wh [sc ek fcb wcb pl] g cs].
  destruct ev as [|[|k] a|width height|width height];
    [| | |destruct wcb as [[|]|]|destruct fcb as [[|]|]];
    (eexists; split; [reflexivity|]); cbn;
    (split; [try done; by destruct a|]);
    intros [? ?]; simplify_eq/=; by rewrite ?app_nil_r.
Qed.

Lemma handle_events_more evs : ∀ s,
  ∃ s',
    handle_events evs s = Ret tt s' ∧
    escape_key (glfw s') = escape_after evs (escape_key (glfw s)) ∧
    (wired s → calls s' = calls s ++ viewports_of evs).
Proof.
  induction evs as [|ev evs IH]; intros s.
  - exists s. cbn. by rewrite app_nil_r.
  - destruct (handle_event_more ev s) as (s1 & R1 & K1 & C1).
    destruct (handle_event_spec ev s)
      as (s1' & vt & R1' & _ & _ & _ & _ & _ & Hk & _).
    rewrite R1 in R1'. injection R1' as <-.
    destruct (IH s1) as (s2 & R2 & K2 & C2).
    exists s2. cbn [handle_events].
    rewrite (bind_Ret _ _ _ _ _ R1). split; [done|].
    split; [by rewrite K2, K1|].
    intros Hw. rewrite (C2 (wired_kept _ _ Hk Hw)), (C1 Hw).
    by rewrite (viewports_of_cons ev evs), app_assoc.
Qed.

(** One run of the loop body. *)
Lemma loop_body_events E w p v s :
  ∃ s',
    loop_body E w p v s = Ret tt s' ∧
    escape_key (glfw s') =
      escape_after (env_events E (polls (glfw s))) (escape_key (glfw s)) ∧
    (wired s →
       calls s' = calls s ++
         body_calls w p v (escape_key (glfw s))
           (env_events E (polls (glfw s))) ++
         viewports_of (env_events E (polls (glfw s)))).
Proof.
  destruct s as [c ww wh [sc ek fcb wcb pl] g cs].
  unfold loop_body.
  assert (∃ s1, process_input w
            {| crt := c; window_width := ww; window_height := wh;
               glfw := {| should_close := sc; escape_key := ek;
                          framebuffer_size_cb := fcb; window_size_cb := wcb;
                          polls := pl |};
               gl := g; calls := cs |} = Ret tt s1 ∧
          crt s1 = c ∧ window_width s1 = ww ∧ window_height s1 = wh ∧
          glfw s1 = {| should_close := sc || bool_decide (ek = GLFW_PRESS);
                       escape_key := ek;
                       framebuffer_size_cb := fcb; window_size_cb := wcb;
                       polls := pl |} ∧
          gl s1 = g ∧
          calls s1 = cs ++ [GlfwGetKey w GLFW_KEY_ESCAPE ek] ++
            (if decide (ek = GLFW_PRESS)
             then [GlfwSetWindowShouldClose w true] else []))
    as (s1 & R1 & ? & ? & ? & ? & ? & ?).
  { destruct ek; eexists; (split; [cbn; reflexivity|]); cbn;
      rewrite ?orb_true_r, ?orb_false_r, <- ?app_assoc; done. }
  rewrite (bind_Ret _ _ _ _ _ R1). destruct s1 as [c1 ww1 wh1 gf1 g1 cs1].
  simplify_eq/=.
  do 7 mstep.
  unfold glfwPollEvents. do 3 mstep.
  match goal with |- context [handle_events ?evs ?s0] =>
    destruct (handle_events_more evs s0) as (s2 & R2 & K2 & C2)
  end.
  exists s2. cbn in R2, K2, C2 |- *.
  split; [done|]. split; [done|].
  intros Hw. rewrite C2; [|destruct Hw; by split].
  unfold body_calls. by rewrite <- !app_assoc.
Qed.

Lemma loop_body_more E w p v s :
  ∃ s',
    loop_body E w p v s = Ret tt s' ∧
    escape_key (glfw s') =
      escape_after (env_events E (polls (glfw s))) (escape_key (glfw s)) ∧
    should_close (glfw s') =
      should_close (glfw s) ||
      bool_decide (escape_key (glfw s) = GLFW_PRESS) ||
      existsb is_close_request (env_events E (polls (glfw s))) ∧
    polls (glfw s') = S (polls (glfw s)) ∧
    (wired s →
       wired s' ∧
       calls s' = calls s ++
         body_calls w p v (escape_key (glfw s))
           (env_events E (polls (glfw s))) ++
         viewports_of (env_events E (polls (glfw s)))).
Proof.
  destruct (loop_body_spec E w p v s)
    as (s' & vt & R & _ & _ & F & P & _ & W).
  destruct (loop_body_events E w p v s) as (s2 & R2 & K2 & C2).
  rewrite R in R2. injection R2 as <-.
  exists s'. repeat (split; [done|]).
  intros Hw. split; [by apply W|by apply C2].
Qed.

Lemma iteration_calls_eq w p v k evs :
  iteration_calls w p v (k, evs) =
  GlfwWindowShouldClose w false ::
  body_calls w p v k evs ++ viewports_of evs.
Proof. reflexivity. Qed.

(** The loop, iteration by iteration, with the callbacks as [main]
    registers them. *)
Lemma render_loop_iterations E fuel : ∀ w p v s,
  wired s →
  ∃ n tail,
    polls (glfw (final (render_loop E fuel w p v s))) =
      (polls (glfw s) + n)%nat ∧
    calls (final (render_loop E fuel w p v s)) =
      calls s ++
      flat_map (iteration_calls w p v)
        (iterations E n (escape_key (glfw s)) (polls (glfw s))) ++
      tail ∧
    match render_loop E fuel w p v s with
    | Ret _ _ => tail = [GlfwWindowShouldClose w true] ∧ (n < fuel)%nat
    | OutOfFuel _ => tail = [] ∧ n = fuel
    | Crash _ _ => False
    end.
Proof.
  induction fuel as [|fuel IH]; intros w p v s Hw.
  - exists 0%nat, []. cbn. by rewrite Nat.add_0_r, app_nil_r.
  - rewrite render_loop_S. destruct (should_close (glfw s)) eqn:Hs.
    + exists 0%nat, [GlfwWindowShouldClose w true]. cbn.
      rewrite Nat.add_0_r. repeat split. lia.
    + destruct (loop_body_more E w p v
                  (record_call (GlfwWindowShouldClose w false) s))
        as (s1 & R & K & _ & P & W).
      rewrite (bind_Ret _ _ _ _ _ R).
      destruct W as [Hw1 C]; [done|].
      cbn [calls record_call glfw escape_key polls] in K, P, C.
      destruct (IH w p v s1 Hw1) as (n & tail & P' & C' & O').
      exists (S n), tail. split; [rewrite P', P; lia|]. split.
      * rewrite C', C, K, P. cbn [iterations flat_map].
        rewrite iteration_calls_eq. cbn [app].
        rewrite <- !app_assoc. reflexivity.
      * destruct (render_loop E fuel w p v s1); [|done|];
          destruct O' as [-> ?]; split; [done|lia|done|lia].
Qed.

Lemma polled_app t1 t2 : polled (t1 ++ t2) = polled t1 ++ polled t2.
Proof. apply flat_map_app. Qed.

Lemma viewports_of_app e1 e2 :
  viewports_of (e1 ++ e2) = viewports_of e1 ++ viewports_of e2.
Proof. apply flat_map_app. Qed.

Lemma viewports_of_facts evs :
  List.filter is_viewport (viewports_of evs) = viewports_of evs ∧
  polled (viewports_of evs) = [] ∧
  count_calls is_draw (viewports_of evs) = 0%nat ∧
  count_calls is_terminate (viewports_of evs) = 0%nat.
Proof.
  induction evs as [|ev evs (IH1 & IH2 & IH3 & IH4)]; [done|].
  rewrite (viewports_of_cons ev evs).
  unfold count_calls in *.
  rewrite polled_app, !List.filter_app, !length_app.
  rewrite IH1, IH2, IH3, IH4. by destruct ev.
Qed.

(** What one iteration shows of the events, of the viewport and of
    drawing. *)
Lemma iteration_calls_facts w p v k evs :
  List.filter is_viewport (iteration_calls w p v (k, evs)) =
    viewports_of evs ∧
  polled (iteration_calls w p v (k, evs)) = evs ∧
  count_calls is_draw (iteration_calls w p v (k, evs)) = 1%nat ∧
  count_calls is_terminate (iteration_calls w p v (k, evs)) = 0%nat.
Proof.
  destruct (viewports_of_facts evs) as (V1 & V2 & V3 & V4).
  unfold iteration_calls, body_calls, count_calls in *. cbn [fst snd].
  rewrite !app_comm_cons, !List.filter_app, !polled_app, !length_app.
  rewrite V1, V2, V3, V4.
  case_decide; cbn; by rewrite ?app_nil_r.
Qed.

Lemma iterations_facts E w p v n : ∀ k pl,
  List.filter is_viewport
    (flat_map (iteration_calls w p v) (iterations E n k pl)) =
    viewports_of (concat (map (env_events E) (seq pl n))) ∧
  polled (flat_map (iteration_calls w p v) (iterations E n k pl)) =
    concat (map (env_events E) (seq pl n)) ∧
  count_calls is_draw
    (flat_map (iteration_calls w p v) (iterations E n k pl)) = n ∧
  count_calls is_terminate
    (flat_map (iteration_calls w p v) (iterations E n k pl)) = 0%nat.
Proof.
  induction n as [|n IH]; intros k pl; [done|].
  destruct (IH (escape_after (env_events E pl) k) (S pl))
    as (I1 & I2 & I3 & I4).
  destruct (iteration_calls_facts w p v k (env_events E pl))
    as (F1 & F2 & F3 & F4).
  cbn [iterations flat_map seq map concat]. unfold count_calls in *.
  rewrite polled_app, !List.filter_app, !length_app, viewports_of_app.
  by rewrite I1, I2, I3, I4, F1, F2, F3, F4.
Qed.

Lemma setup_calls_facts E vs fs :
  List.filter is_viewport (setup_calls E vs fs) = [] ∧
  polled (setup_calls E vs fs) = [] ∧
  count_calls is_draw (setup_calls E vs fs) = 0%nat ∧
  count_calls is_terminate (setup_calls E vs fs) = 0%nat.
Proof.
  unfold setup_calls, shader_calls, link_check_calls, count_calls.
  by destruct (vs_failed E), (fs_failed E), (sp_failed E).
Qed.

(** A run of [main] that enters the loop, as a list of iterations. *)
Lemma main_iterations E vs fs fuel :
  loads E vs fs →
  env_glfwCreateWindow E = Some TheWindow →
  env_gladLoadGLLoader E ≠ 0 →
  ∃ n tail,
    polls (glfw (final (main E fuel (initial E)))) = n ∧
    calls (final (main E fuel (initial E))) =
      setup_calls E (Ptr 0) (Ptr 1) ++
      flat_map (iteration_calls TheWindow shader_program RECT_VAO)
        (iterations E n GLFW_RELEASE 0) ++
      tail ∧
    match main E fuel (initial E) with
    | Ret r _ =>
        r = 0 ∧
        tail = [GlfwWindowShouldClose TheWindow true; GlfwTerminate] ∧
        (n < fuel)%nat
    | OutOfFuel _ => tail = [] ∧ n = fuel
    | Crash _ _ => False
    end.
Proof.
  intros Hl Hw Hg.
  rewrite (main_enters_loop E vs fs fuel Hl Hw Hg).
  destruct (render_loop_iterations E fuel TheWindow shader_program RECT_VAO
              (entry E vs fs) (at_loop_wired _ _ _ _))
    as (n & tail & P & C & O).
  destruct (render_loop E fuel TheWindow shader_program RECT_VAO
              (entry E vs fs)) as [[] s1|why s1|s1] eqn:R; [| done |].
  - rewrite (bind_Ret _ _ _ _ _ R).
    change ((glfwTerminate ;; ret 0) s1)
      with (Ret 0 (record_call GlfwTerminate s1)).
    destruct O as [-> ?].
    exists n, [GlfwWindowShouldClose TheWindow true; GlfwTerminate].
    cbn [final calls glfw record_call] in P, C |- *.
    rewrite C, <- !app_assoc. by repeat split.
  - rewrite (bind_OutOfFuel _ _ _ _ R).
    destruct O as [-> ->]. exists fuel, [].
    cbn [final] in P, C |- *. by rewrite C.
Qed.

(** Escape left pressed by the events of some later poll ends the loop:
    three tests more than polls until then are enough. *)
Lemma render_loop_escape E w p v n : ∀ s,
  escape_after (env_events E (polls (glfw s) + n)) GLFW_RELEASE =
    GLFW_PRESS →
  ∃ s', render_loop E (n + 3) w p v s = Ret tt s'.
Proof.
  induction n as [|n IH]; intros s Hk.
  - rewrite Nat.add_0_r in Hk. cbn [Nat.add].
    rewrite render_loop_S. destruct (should_close (glfw s)) eqn:Hs.
    { by eexists. }
    destruct (loop_body_more E w p v
                (record_call (GlfwWindowShouldClose w false) s))
      as (s1 & R1 & K1 & _).
    rewrite (bind_Ret _ _ _ _ _ R1).
    cbn [glfw record_call polls escape_key] in K1.
    rewrite render_loop_S. destruct (should_close (glfw s1)) eqn:Hs1.
    { by eexists. }
    destruct (loop_body_more E w p v
                (record_call (GlfwWindowShouldClose w false) s1))
      as (s2 & R2 & _ & F2 & _).
    rewrite (bind_Ret _ _ _ _ _ R2).
    cbn [glfw record_call polls escape_key should_close] in F2.
    rewrite K1, (escape_after_pressed _ _ Hk) in F2.
    rewrite bool_decide_eq_true_2, orb_true_r in F2 by done.
    rewrite render_loop_S, F2. by eexists.
  - cbn [Nat.add]. rewrite render_loop_S.
    destruct (should_close (glfw s)) eqn:Hs.
    { by eexists. }
    destruct (loop_body_more E w p v
                (record_call (GlfwWindowShouldClose w false) s))
      as (s1 & R & _ & _ & P & _).
    rewrite (bind_Ret _ _ _ _ _ R). apply IH.
    cbn [glfw record_call polls] in P. rewrite P.
    by replace (S (polls (glfw s)) + n)%nat with (polls (glfw s) + S n)%nat
      by lia.
Qed.

(** ** The loop of [main] *)

(** X10.  [main] never sets the viewport itself.  In a run that enters the
    loop, the events reported by the calls of [glfwPollEvents] are those of
    the polls made, in order, and the calls of [glViewport] are exactly
    those of [framebuffer_size_callback]: one for each framebuffer size
    event reported, in order, with the size of the event.  No other event
    leads to one, a window size event included. *)
Theorem viewport_follows_framebuffer_size E vs fs fuel :
  loads E vs fs →
  env_glfwCreateWindow E = Some TheWindow →
  env_gladLoadGLLoader E ≠ 0 →
  let s := final (main E fuel (initial E)) in
  polled (calls s) =
    concat (map (env_events E) (seq 0 (polls (glfw s)))) ∧
  List.filter is_viewport (calls s) = viewports_of (polled (calls s)).
Proof.
  intros Hl Hw Hg s. unfold s.
  destruct (main_iterations E vs fs fuel Hl Hw Hg) as (n & tail & P & C & O).
  destruct (setup_calls_facts E (Ptr 0) (Ptr 1)) as (S1 & S2 & _).
  destruct (iterations_facts E TheWindow shader_program RECT_VAO n
              GLFW_RELEASE 0) as (I1 & I2 & _).
  assert (List.filter is_viewport tail = [] ∧ polled tail = [])
    as [T1 T2].
  { destruct (main E fuel (initial E)); [|done|];
      destruct_and!; by simplify_eq. }
  rewrite C, P, !polled_app, !List.filter_app.
  rewrite S1, S2, I1, I2, T1, T2. cbn [app]. by rewrite !app_nil_r.
Qed.

Lemma viewport_follows_framebuffer_size_witness :
  let E := demo_env 1 1 in
  let s := final (main E 5 (initial E)) in
  polled (calls s) =
    concat (map (env_events E) (seq 0 (polls (glfw s)))) ∧
  List.filter is_viewport (calls s) = viewports_of (polled (calls s)).
Proof.
  intros E.
  apply (viewport_follows_framebuffer_size E ["v"; "s"]%byte ["f"]%byte 5).
  - apply demo_loads.
  - reflexivity.
  - discriminate.
Defined.

(** X11.  Escape ends the program.  If the events of poll number [n] leave
    the Escape key pressed, then [main] leaves the loop, calls
    [glfwTerminate] and returns 0, and it tests the loop condition at most
    [n + 3] times: [process_input] sees the key in the iteration after
    that poll and sets the close flag, the rest of that iteration still
    runs, and the next test ends the loop. *)
Theorem escape_ends_main E vs fs n :
  loads E vs fs →
  env_glfwCreateWindow E = Some TheWindow →
  env_gladLoadGLLoader E ≠ 0 →
  escape_after (env_events E n) GLFW_RELEASE = GLFW_PRESS →
  ∃ s',
    main E (n + 3) (initial E) = Ret 0 s' ∧
    should_close (glfw s') = true ∧
    last (calls s') = Some GlfwTerminate ∧
    (polls (glfw s') ≤ n + 2)%nat.
Proof.
  intros Hl Hw Hg Hk.
  destruct (main_iterations E vs fs (n + 3) Hl Hw Hg)
    as (m & tail & P & C & O).
  revert P C O. rewrite (main_enters_loop E vs fs (n + 3) Hl Hw Hg).
  destruct (render_loop_escape E TheWindow shader_program RECT_VAO n
              (entry E vs fs) Hk) as (s1 & R).
  destruct (render_loop_spec E (n + 3) TheWindow shader_program RECT_VAO
              (entry E vs fs)) as (t & _ & _ & _ & _ & F & _).
  destruct (F _ _ R) as [Hs1 _].
  rewrite (bind_Ret _ _ _ _ _ R).
  change ((glfwTerminate ;; ret 0) s1)
    with (Ret 0 (record_call GlfwTerminate s1)).
  cbn [final]. intros P C (_ & -> & Hm).
  eexists. split; [reflexivity|]. split; [exact Hs1|].
  split; [|lia].
  rewrite C.
  change [GlfwWindowShouldClose TheWindow true; GlfwTerminate]
    with ([GlfwWindowShouldClose TheWindow true] ++ [GlfwTerminate]).
  rewrite !app_assoc. apply last_snoc.
Qed.

Lemma escape_ends_main_witness :
  let E := demo_env 1 1 in
  ∃ s',
    main E (2 + 3) (initial E) = Ret 0 s' ∧
    should_close (glfw s') = true ∧
    last (calls s') = Some GlfwTerminate ∧
    (polls (glfw s') ≤ 2 + 2)%nat.
Proof.
  intros E.
  apply (escape_ends_main E ["v"; "s"]%byte ["f"]%byte 2).
  - apply demo_loads.
  - reflexivity.
  - discriminate.
  - reflexivity.
Defined.

(** While no poll holds a close request or leaves Escape pressed, the
    loop goes on. *)
Lemma render_loop_goes_on E w p v fuel : ∀ s,
  should_close (glfw s) = false →
  escape_key (glfw s) = GLFW_RELEASE →
  (∀ n, (polls (glfw s) ≤ n)%nat →
     existsb is_close_request (env_events E n) = false ∧
     escape_after (env_events E n) GLFW_RELEASE = GLFW_RELEASE) →
  ∃ s', render_loop E fuel w p v s = OutOfFuel s'.
Proof.
  induction fuel as [|fuel IH]; intros s Hs Hk Hq; [by eexists|].
  rewrite render_loop_S, Hs.
  destruct (loop_body_more E w p v
              (record_call (GlfwWindowShouldClose w false) s))
    as (s1 & R & K & F & P & _).
  rewrite (bind_Ret _ _ _ _ _ R).
  cbn [glfw record_call polls escape_key should_close] in K, F, P.
  destruct (Hq (polls (glfw s))) as [Hq1 Hq2]; [lia|].
  apply IH.
  - rewrite F, Hs, Hk, Hq1. done.
  - by rewrite K, Hk.
  - intros n Hn. apply Hq. lia.
Qed.

(** X12.  As long as no poll holds a close request or leaves the Escape
    key pressed, [main] stays in the loop: whatever number of tests of the
    loop condition it is given, it has not returned, has drawn once for
    each test and has not called [glfwTerminate].  The key is sampled once
    per iteration, so a press that is released again within the events of
    one poll goes unnoticed. *)
Theorem main_stays_in_loop E vs fs :
  loads E vs fs →
  env_glfwCreateWindow E = Some TheWindow →
  env_gladLoadGLLoader E ≠ 0 →
  (∀ n, existsb is_close_request (env_events E n) = false ∧
        escape_after (env_events E n) GLFW_RELEASE = GLFW_RELEASE) →
  ∀ fuel, ∃ s',
    main E fuel (initial E) = OutOfFuel s' ∧
    polls (glfw s') = fuel ∧
    count_calls is_draw (calls s') = fuel ∧
    count_calls is_terminate (calls s') = 0%nat.
Proof.
  intros Hl Hw Hg Hq fuel.
  destruct (main_iterations E vs fs fuel Hl Hw Hg)
    as (m & tail & P & C & O).
  revert P C O. rewrite (main_enters_loop E vs fs fuel Hl Hw Hg).
  destruct (render_loop_goes_on E TheWindow shader_program RECT_VAO fuel
              (entry E vs fs)) as (s1 & R); [done|done|intros; apply Hq|].
  rewrite (bind_OutOfFuel _ _ _ _ R). cbn [final].
  intros P C (-> & ->).
  eexists. split; [reflexivity|]. split; [done|].
  destruct (setup_calls_facts E (Ptr 0) (Ptr 1)) as (_ & _ & S3 & S4).
  destruct (iterations_facts E TheWindow shader_program RECT_VAO fuel
              GLFW_RELEASE 0) as (_ & _ & I3 & I4).
  rewrite C. unfold count_calls in *.
  rewrite !List.filter_app, !length_app, S3, S4, I3, I4. cbn. lia.
Qed.

Lemma main_stays_in_loop_witness :
  let E := with_events
             (fun _ => [KeyEvent GLFW_KEY_ESCAPE GLFW_PRESS;
                        KeyEvent GLFW_KEY_ESCAPE GLFW_RELEASE;
                        WindowResized 640 480])
             (demo_env 1 1) in
  ∃ s',
    main E 7 (initial E) = OutOfFuel s' ∧
    polls (glfw s') = 7%nat ∧
    count_calls is_draw (calls s') = 7%nat ∧
    count_calls is_terminate (calls s') = 0%nat.
Proof.
  intros E.
  apply (main_stays_in_loop E ["v"; "s"]%byte ["f"]%byte).
  - apply (demo_loads 1 1).
  - reflexivity.
  - discriminate.
  - intros n. split; reflexivity.
Defined.

(** X13.  A run of [main] that enters the loop makes the calls of the
    setup, then those of a number of whole iterations, one for each poll,
    and then either nothing more, when it is cut off, or the test that
    finds the close flag set and [glfwTerminate].  Each iteration tests the
    flag, asks for the Escape key, sets the flag if the key is down,
    clears, binds the program and the vertex array of the rectangle, draws
    6 indices, unbinds, swaps and polls; the key state it sees is the one
    the events of the polls before it have left.  So there is one draw for
    each poll, and the iteration that sees the key still draws. *)
Theorem main_trace_by_iterations E vs fs fuel :
  loads E vs fs →
  env_glfwCreateWindow E = Some TheWindow →
  env_gladLoadGLLoader E ≠ 0 →
  let s := final (main E fuel (initial E)) in
  ∃ tail,
    calls s =
      setup_calls E (Ptr 0) (Ptr 1) ++
      flat_map (iteration_calls TheWindow shader_program RECT_VAO)
        (iterations E (polls (glfw s)) GLFW_RELEASE 0) ++
      tail ∧
    (tail = [] ∨
     tail = [GlfwWindowShouldClose TheWindow true; GlfwTerminate]) ∧
    (polls (glfw s) ≤ fuel)%nat ∧
    count_calls is_draw (calls s) = polls (glfw s).
Proof.
  intros Hl Hw Hg s. unfold s.
  destruct (main_iterations E vs fs fuel Hl Hw Hg)
    as (n & tail & P & C & O).
  destruct (setup_calls_facts E (Ptr 0) (Ptr 1)) as (_ & _ & S3 & _).
  destruct (iterations_facts E TheWindow shader_program RECT_VAO n
              GLFW_RELEASE 0) as (_ & _ & I3 & _).
  exists tail. rewrite P. split; [exact C|].
  assert ((tail = [] ∨
           tail = [GlfwWindowShouldClose TheWindow true; GlfwTerminate]) ∧
          (n ≤ fuel)%nat) as [T ?].
  { destruct (main E fuel (initial E)); [|done|];
      destruct_and!; split; auto; lia. }
  split; [done|]. split; [done|].
  rewrite C. unfold count_calls in *.
  rewrite !List.filter_app, !length_app, S3, I3.
  destruct T as [-> | ->]; cbn; lia.
Qed.

Lemma main_trace_by_iterations_witness :
  let E := demo_env 1 1 in
  let s := final (main E 5 (initial E)) in
  ∃ tail,
    calls s =
      setup_calls E (Ptr 0) (Ptr 1) ++
      flat_map (iteration_calls TheWindow shader_program RECT_VAO)
        (iterations E (polls (glfw s)) GLFW_RELEASE 0) ++
      tail ∧
    (tail = [] ∨
     tail = [GlfwWindowShouldClose TheWindow true; GlfwTerminate]) ∧
    (polls (glfw s) ≤ 5)%nat ∧
    count_calls is_draw (calls s) = polls (glfw s).
Proof.
  intros E.
  apply (main_trace_by_iterations E ["v"; "s"]%byte ["f"]%byte 5).
  - apply demo_loads.
  - reflexivity.
  - discriminate.
Defined.
